(** * Employee directory (app.py): a shallow embedding and its properties

    The program keeps a table [employees] in an SQLite file, fills it with
    random records in batches, lists it, and times one filter query before
    and after creating an index.

    Python values are modelled directly: [str] as [string], [int] as [nat]
    or [Z], the floats returned by [time.time()] as rationals.  Everything
    the program obtains from outside (random draws, clock readings, today's
    date, storage faults, the line typed at the prompt, the row the engine
    reads a bare column of a group from) is a field of the [world] the code
    runs in, so every theorem quantifies over it. *)

From Stdlib Require Import List String Ascii Bool Arith PeanoNat ZArith QArith.
From Stdlib Require Import Lia Permutation Sorted DecimalString.
Import ListNotations.

Local Open Scope string_scope.
Local Open Scope nat_scope.
Local Open Scope list_scope.

(** ** Data model *)

(** [class Employee]: three text attributes. *)
Record Employee := mkEmployee {
  full_name : string;
  birth_date : string;
  gender : string
}.

(** A result row of [SELECT full_name, birth_date, gender], and the
    parameter tuple of the [INSERT] statement. *)
Definition tuple : Type := (string * string * string)%type.

Definition t_full_name (t : tuple) : string := fst (fst t).
Definition t_birth_date (t : tuple) : string := snd (fst t).
Definition t_gender (t : tuple) : string := snd t.

Definition as_tuple (e : Employee) : tuple :=
  (full_name e, birth_date e, gender e).

(** A stored row: the [id INTEGER PRIMARY KEY AUTOINCREMENT] column and the
    three text columns. *)
Record row := mkRow {
  rowid : Z;
  cols : tuple
}.

(** An entry of [idx_gender_name ON employees(gender, full_name)]: the two
    indexed columns and the rowid. *)
Definition index_entry : Type := (string * string * Z)%type.

Definition entry_of (r : row) : index_entry :=
  (t_gender (cols r), t_full_name (cols r), rowid r).

(** The database file: the table (absent before [CREATE TABLE]), the
    AUTOINCREMENT counter kept in [sqlite_sequence], and the index. *)
Record database := mkDb {
  employees : option (list row);
  sqlite_sequence : Z;
  idx_gender_name : option (list index_entry)
}.

(** [sqlite3.connect]: what is on disk, and the working copy of the open
    transaction, if one is open. *)
Record connection := mkConn {
  durable : database;
  txn : option database
}.

Inductive exn :=
| ValueError (msg : string)
| OperationalError (msg : string)
| ZeroDivisionError (msg : string)
| EOFError (msg : string).

(** What a function hands back to its caller. *)
Inductive pyvalue :=
| PyNone
| PyInt (n : Z)
| PyFloat (x : Q).

Definition date : Type := (nat * nat * nat)%type.

(** One sampling instant of the system clocks: the monotonic clock and the
    wall clock ([time.time()]), which the operator or NTP may set back. *)
Record instant := mkInstant {
  monotonic : Q;
  wall : Q
}.

(** Lines written by [print], and the prompt [input] writes before it
    reads. *)
Inductive line :=
| Text (s : string)
| Prompt (s : string)
| Rule (n : nat)
| Title (s : string) (width : nat)
| Header
| Dashes (n : nat)
| EmployeeLine (t : tuple) (age : Z)
| MoreRecords (n : nat)
| Generating (count : nat)
| Added (name : string)
| QueryTime (t : Q)
| Before (t : Q)
| After (t : Q)
| Improvement (p : Q)
| ErrorLine (e : exn).

(** Ghost record of the calls made on the cursor: each [batch_save] with
    its records, each [fetchall] with its result. *)
Inductive event :=
| BatchSave (es : list Employee)
| Fetchall (rs : list tuple).

Record world := mkWorld {
  conn : connection;
  rng : list nat;
  clock : list instant;
  today : date;
  faults : list bool;
  stdin : list string;
  stdout : list line;
  log : list event;
  bare_choice : list row -> nat
}.

Definition set_conn (c : connection) (w : world) : world :=
  mkWorld c (rng w) (clock w) (today w) (faults w) (stdin w) (stdout w) (log w)
          (bare_choice w).
Definition set_rng (g : list nat) (w : world) : world :=
  mkWorld (conn w) g (clock w) (today w) (faults w) (stdin w) (stdout w) (log w)
          (bare_choice w).
Definition set_clock (k : list instant) (w : world) : world :=
  mkWorld (conn w) (rng w) k (today w) (faults w) (stdin w) (stdout w) (log w)
          (bare_choice w).
Definition set_faults (f : list bool) (w : world) : world :=
  mkWorld (conn w) (rng w) (clock w) (today w) f (stdin w) (stdout w) (log w)
          (bare_choice w).
Definition set_stdin (i : list string) (w : world) : world :=
  mkWorld (conn w) (rng w) (clock w) (today w) (faults w) i (stdout w) (log w)
          (bare_choice w).
Definition set_stdout (o : list line) (w : world) : world :=
  mkWorld (conn w) (rng w) (clock w) (today w) (faults w) (stdin w) o (log w)
          (bare_choice w).
Definition set_log (l : list event) (w : world) : world :=
  mkWorld (conn w) (rng w) (clock w) (today w) (faults w) (stdin w) (stdout w) l
          (bare_choice w).

(** ** The monad of Python code: state and exceptions

    An exception keeps the state reached when it was raised. *)

Inductive result (A : Type) :=
| Ok (a : A)
| Raise (e : exn).
Arguments Ok {A} a.
Arguments Raise {A} e.

Definition M (A : Type) : Type := world -> result A * world.

Definition ret {A} (a : A) : M A := fun w => (Ok a, w).
Definition raise {A} (e : exn) : M A := fun w => (Raise e, w).
Definition bind {A B} (m : M A) (k : A -> M B) : M B :=
  fun w => match m w with
           | (Ok a, w') => k a w'
           | (Raise e, w') => (Raise e, w')
           end.
Definition get : M world := fun w => (Ok w, w).
Definition modify (f : world -> world) : M unit := fun w => (Ok tt, f w).

Declare Scope py_scope.
Delimit Scope py_scope with py.
Notation "x <- c1 ;; c2" := (bind c1 (fun x => c2))
  (at level 61, c1 at next level, right associativity) : py_scope.
Notation "c1 ;; c2" := (bind c1 (fun _ => c2))
  (at level 61, right associativity) : py_scope.
Local Open Scope py_scope.

(** [try: body  except Exception as e: handler e]. *)
Definition try_except {A} (body : M A) (handler : exn -> M A) : M A :=
  fun w => match body w with
           | (Ok a, w') => (Ok a, w')
           | (Raise e, w') => handler e w'
           end.

(** [try: body  finally: cleanup]. *)
Definition try_finally {A} (body : M A) (cleanup : M unit) : M A :=
  fun w => match body w with
           | (r, w') => match cleanup w' with
                        | (Ok _, w'') => (r, w'')
                        | (Raise e, w'') => (Raise e, w'')
                        end
           end.

Definition print (l : line) : M unit :=
  modify (fun w => set_stdout (stdout w ++ [l]) w).

Definition record (e : event) : M unit :=
  modify (fun w => set_log (log w ++ [e]) w).

(** ** Library functions the program calls *)

(** The random module: each draw takes the next raw number of the source
    and maps it into the requested range. *)
Definition random_next : M nat :=
  fun w => (Ok (hd 0 (rng w)), set_rng (tl (rng w)) w).

Definition random_choice (seq : list string) : M string :=
  r <- random_next ;;
  ret (nth (r mod List.length seq) seq "").

Definition random_randint (a b : nat) : M nat :=
  r <- random_next ;;
  ret (a + r mod (b - a + 1)).

(** [time.time()]: the wall clock at the next sampling instant. *)
Definition time_time : M Q :=
  fun w => (Ok (wall (hd (mkInstant 0 0) (clock w))), set_clock (tl (clock w)) w).

Definition date_today : M date := fun w => (Ok (today w), w).

(** [input(prompt)]: the prompt is written, then the next line of the
    standard input is read; at the end of the input [EOFError] is raised. *)
Definition readline : M string :=
  fun w =>
    match stdin w with
    | [] => (Raise (EOFError "EOF when reading a line"), w)
    | l :: rest => (Ok l, set_stdin rest w)
    end.

Definition input (prompt : string) : M string :=
  print (Prompt prompt) ;;
  readline.

(** [str(n)] and the format specification [02d]. *)
Definition str (n : nat) : string := NilZero.string_of_uint (Nat.to_uint n).

Definition fmt_02d (n : nat) : string :=
  if n <? 10 then ("0" ++ str n)%string else str n.

(** [datetime.strptime(s, "%Y-%m-%d").date()]: a four-digit year, a
    month of one or two digits and a day of one or two digits or of a
    space and one digit from 1 to 9, separated by hyphens, that name a day
    of the calendar.  A character of a [string] is a code point below 256,
    where the decimal digits are the ten ASCII ones. *)
Definition is_digit (c : ascii) : bool :=
  (48 <=? nat_of_ascii c) && (nat_of_ascii c <=? 57).

Fixpoint all_digits (s : string) : bool :=
  match s with
  | EmptyString => true
  | String c s' => is_digit c && all_digits s'
  end.

Fixpoint int_of_digits (acc : nat) (s : string) : nat :=
  match s with
  | EmptyString => acc
  | String c s' => int_of_digits (10 * acc + (nat_of_ascii c - 48)) s'
  end.

Fixpoint split_hyphen (cur : string) (s : string) : list string :=
  match s with
  | EmptyString => [cur]
  | String c s' =>
      if Ascii.eqb c "-" then cur :: split_hyphen "" s'
      else split_hyphen (cur ++ String c "")%string s'
  end.

Definition is_leap (y : nat) : bool :=
  ((y mod 4 =? 0) && negb (y mod 100 =? 0)) || (y mod 400 =? 0).

Definition days_in_month (y m : nat) : nat :=
  match m with
  | 2 => if is_leap y then 29 else 28
  | 4 | 6 | 9 | 11 => 30
  | _ => 31
  end.

Definition field (lo hi : nat) (s : string) : option nat :=
  if all_digits s && (lo <=? String.length s) && (String.length s <=? hi)
  then Some (int_of_digits 0 s) else None.

(** The directive [%d] also takes a day padded with a space. *)
Definition day_field (s : string) : option nat :=
  match s with
  | String pad (String c EmptyString) =>
      if Ascii.eqb pad " "
      then if (49 <=? nat_of_ascii c) && (nat_of_ascii c <=? 57)
           then Some (nat_of_ascii c - 48) else None
      else field 1 2 s
  | _ => field 1 2 s
  end.

Definition strptime (s : string) : option date :=
  match split_hyphen "" s with
  | [ys; ms; ds] =>
      match field 4 4 ys, field 1 2 ms, day_field ds with
      | Some y, Some m, Some d =>
          if (1 <=? y) && (1 <=? m) && (m <=? 12)
             && (1 <=? d) && (d <=? days_in_month y m)
          then Some (y, m, d) else None
      | _, _, _ => None
      end
  | _ => None
  end.

(** ** The SQL statements of the program, on a database

    Each statement of the source is given the meaning SQLite gives it. *)

Definition rows (d : database) : list row :=
  match employees d with
  | Some rs => rs
  | None => []
  end.

(** What a reader of the table sees, without the surrogate keys. *)
Definition contents (d : database) : list tuple := map cols (rows d).

(** The index is kept ordered by (gender, full_name, rowid). *)
Definition entry_leb (a b : index_entry) : bool :=
  let '(g1, n1, i1) := a in
  let '(g2, n2, i2) := b in
  match String.compare g1 g2 with
  | Lt => true
  | Gt => false
  | Eq => match String.compare n1 n2 with
          | Lt => true
          | Gt => false
          | Eq => (i1 <=? i2)%Z
          end
  end.

Fixpoint index_insert (e : index_entry) (ix : list index_entry)
  : list index_entry :=
  match ix with
  | [] => [e]
  | x :: ix' => if entry_leb e x then e :: ix else x :: index_insert e ix'
  end.

Definition index_build (rs : list row) : list index_entry :=
  fold_right index_insert [] (map entry_of rs).

(** [CREATE TABLE IF NOT EXISTS employees (...)]. *)
Definition sql_create_table (d : database) : database :=
  match employees d with
  | Some _ => d
  | None => mkDb (Some []) (sqlite_sequence d) None
  end.

(** [DROP TABLE IF EXISTS employees]: the table goes with its index and
    its AUTOINCREMENT counter. *)
Definition sql_drop_table (d : database) : database := mkDb None 0 None.

(** [INSERT INTO employees (full_name, birth_date, gender) VALUES (?, ?, ?)]:
    the new row takes the next key and enters the index, if there is one. *)
Definition sql_insert (t : tuple) (d : database) : option database :=
  match employees d with
  | None => None
  | Some rs =>
      let r := mkRow (sqlite_sequence d + 1)%Z t in
      Some (mkDb (Some (rs ++ [r])) (rowid r)
                 (option_map (index_insert (entry_of r)) (idx_gender_name d)))
  end.

(** [CREATE INDEX IF NOT EXISTS idx_gender_name ON employees(gender, full_name)]. *)
Definition sql_create_index (d : database) : option database :=
  match employees d with
  | None => None
  | Some rs =>
      match idx_gender_name d with
      | Some _ => Some d
      | None => Some (mkDb (Some rs) (sqlite_sequence d) (Some (index_build rs)))
      end
  end.

(** [full_name LIKE 'F%']: LIKE ignores the case of ASCII letters. *)
Definition like_F (s : string) : bool :=
  match s with
  | String c _ => Ascii.eqb c "F" || Ascii.eqb c "f"
  | EmptyString => false
  end.

Definition where_male_f (g n : string) : bool :=
  String.eqb g "Male" && like_F n.

Definition fetch_row (i : Z) (rs : list row) : option row :=
  find (fun r => (rowid r =? i)%Z) rs.

(** [SELECT full_name, birth_date, gender FROM employees
     WHERE gender = 'Male' AND full_name LIKE 'F%']: a scan of the table in
    rowid order, or, once the index exists, a walk through the index that
    fetches each matching row by its rowid. *)
Definition scan_male_f (rs : list row) : list tuple :=
  map cols (filter (fun r => where_male_f (t_gender (cols r))
                                          (t_full_name (cols r))) rs).

Definition search_male_f (ix : list index_entry) (rs : list row) : list tuple :=
  flat_map (fun e : index_entry =>
              let '(g, n, i) := e in
              if where_male_f g n then
                match fetch_row i rs with
                | Some r => [cols r]
                | None => []
                end
              else []) ix.

Definition sql_select_male_f (d : database) : option (list tuple) :=
  match employees d with
  | None => None
  | Some rs =>
      match idx_gender_name d with
      | None => Some (scan_male_f rs)
      | Some ix => Some (search_male_f ix rs)
      end
  end.

(** [SELECT DISTINCT full_name, birth_date, gender FROM employees
     GROUP BY full_name, birth_date ORDER BY full_name]. *)
Definition key : Type := (string * string)%type.

Definition key_of (t : tuple) : key := (t_full_name t, t_birth_date t).

Definition key_eqb (a b : key) : bool :=
  String.eqb (fst a) (fst b) && String.eqb (snd a) (snd b).

Definition tuple_eqb (a b : tuple) : bool :=
  key_eqb (key_of a) (key_of b) && String.eqb (t_gender a) (t_gender b).

(** GROUP BY: a row joins the group of its key, or opens a new one. *)
Fixpoint add_to_groups (r : row) (gs : list (list row)) : list (list row) :=
  match gs with
  | [] => [[r]]
  | g :: gs' =>
      match g with
      | [] => add_to_groups r gs'
      | r0 :: _ =>
          if key_eqb (key_of (cols r0)) (key_of (cols r))
          then (g ++ [r]) :: gs'
          else g :: add_to_groups r gs'
      end
  end.

Definition group_by (rs : list row) : list (list row) :=
  fold_left (fun gs r => add_to_groups r gs) rs [].

Definition null_row : row := mkRow 0 ("", "", "").

(** The output row of a group: [gender] is a bare column, read from
    whichever row of the group the engine chooses. *)
Definition bare_row (choice : list row -> nat) (g : list row) : tuple :=
  cols (nth (choice g mod List.length g) g null_row).

(** DISTINCT. *)
Fixpoint distinct (ts : list tuple) : list tuple :=
  match ts with
  | [] => []
  | t :: ts' => t :: filter (fun u => negb (tuple_eqb t u)) (distinct ts')
  end.

(** ORDER BY full_name: the byte order of the BINARY collation. *)
Fixpoint order_insert (t : tuple) (ts : list tuple) : list tuple :=
  match ts with
  | [] => [t]
  | u :: ts' =>
      if String.leb (t_full_name t) (t_full_name u)
      then t :: ts else u :: order_insert t ts'
  end.

Definition order_by_full_name (ts : list tuple) : list tuple :=
  fold_right order_insert [] ts.

Definition sql_select_distinct (choice : list row -> nat) (d : database)
  : option (list tuple) :=
  match employees d with
  | None => None
  | Some rs =>
      Some (order_by_full_name
              (distinct (map (bare_row choice) (group_by rs))))
  end.

(** ** The connection and the cursor *)

Definition working (c : connection) : database :=
  match txn c with
  | Some d => d
  | None => durable c
  end.

Definition no_such_table : exn := OperationalError "no such table: employees".

(** A write may meet a storage fault; the oracle says when. *)
Definition storage_fault : M unit :=
  fun w => if hd false (faults w)
           then (Raise (OperationalError "disk I/O error"),
                 set_faults (tl (faults w)) w)
           else (Ok tt, set_faults (tl (faults w)) w).

(** Preparing the INSERT statement needs the table. *)
Definition prepare_insert : M unit :=
  w <- get ;;
  match employees (working (conn w)) with
  | None => raise no_such_table
  | Some _ => ret tt
  end.

(** The sqlite3 module opens a transaction before the first INSERT. *)
Definition begin : M unit :=
  modify (fun w => set_conn (mkConn (durable (conn w))
                                    (Some (working (conn w)))) w).

Definition step_insert (t : tuple) : M unit :=
  storage_fault ;;
  w <- get ;;
  match sql_insert t (working (conn w)) with
  | None => raise no_such_table
  | Some d => modify (set_conn (mkConn (durable (conn w)) (Some d)))
  end.

Fixpoint step_all (data : list tuple) : M unit :=
  match data with
  | [] => ret tt
  | t :: data' => step_insert t ;; step_all data'
  end.

(** [cursor.execute("INSERT ...", t)] and [cursor.executemany("INSERT ...", data)]. *)
Definition cursor_execute_insert (t : tuple) : M unit :=
  prepare_insert ;; begin ;; step_insert t.

Definition cursor_executemany_insert (data : list tuple) : M unit :=
  prepare_insert ;; begin ;; step_all data.

(** [cursor.execute] of a schema statement: it runs in the open
    transaction, or alone when none is open. *)
Definition cursor_execute_ddl (stmt : database -> option database) : M unit :=
  w <- get ;;
  match stmt (working (conn w)) with
  | None => raise no_such_table
  | Some d =>
      storage_fault ;;
      modify (fun w => match txn (conn w) with
                       | None => set_conn (mkConn d None) w
                       | Some _ => set_conn (mkConn (durable (conn w)) (Some d)) w
                       end)
  end.

(** [cursor.execute("SELECT ...")] followed by [cursor.fetchall()]. *)
Definition cursor_fetch (query : database -> option (list tuple))
  : M (list tuple) :=
  w <- get ;;
  match query (working (conn w)) with
  | None => raise no_such_table
  | Some ts => record (Fetchall ts) ;; ret ts
  end.

(** [conn.commit()]. *)
Definition conn_commit : M unit :=
  w <- get ;;
  match txn (conn w) with
  | None => ret tt
  | Some d => storage_fault ;; modify (set_conn (mkConn d None))
  end.

(** [conn.close()]: an open transaction is rolled back. *)
Definition conn_close : M unit :=
  modify (fun w => set_conn (mkConn (durable (conn w)) None) w).

(** [sqlite3.connect(db_name)]: a fresh connection to what is on disk.
    The runs described are those in which the file opens: [main] makes
    this call before its [try], so a failure to open the file is not
    handled there and nothing of the program runs after it. *)
Definition sqlite3_connect : M unit :=
  modify (fun w => set_conn (mkConn (durable (conn w)) None) w).

(** ** class Employee *)

Definition save_to_db (self : Employee) : M unit :=
  cursor_execute_insert (full_name self, birth_date self, gender self).

(** The [ValueError] of [strptime] is raised with the constant part of the
    library's message, whose full text depends on the string. *)
Definition calculate_age (self : Employee) : M Z :=
  match strptime (birth_date self) with
  | None => raise (ValueError "time data does not match format '%Y-%m-%d'")
  | Some (year, month, day) =>
      t <- date_today ;;
      let '(today_year, today_month, today_day) := t in
      let age := (Z.of_nat today_year - Z.of_nat year)%Z in
      if (today_month <? month)
         || ((today_month =? month) && (today_day <? day))
      then ret (age - 1)%Z
      else ret age
  end.

Definition batch_save (employees : list Employee) : M unit :=
  record (BatchSave employees) ;;
  let data := map (fun e => (full_name e, birth_date e, gender e)) employees in
  cursor_executemany_insert data.

(** ** class EmployeeDirectory *)

Fixpoint for_each {A} (l : list A) (body : A -> M unit) : M unit :=
  match l with
  | [] => ret tt
  | x :: l' => body x ;; for_each l' body
  end.

Definition create_table : M unit :=
  cursor_execute_ddl (fun d => Some (sql_create_table d)) ;;
  conn_commit ;;
  print (Text "[SUCCESS] Employee table created successfully").

Definition clear_database : M unit :=
  cursor_execute_ddl (fun d => Some (sql_drop_table d)) ;;
  conn_commit ;;
  create_table ;;
  print (Text "[WARNING] Database has been cleared!").

Definition add_employee (full_name birth_date gender : string) : M unit :=
  let employee := mkEmployee full_name birth_date gender in
  save_to_db employee ;;
  conn_commit ;;
  print (Added full_name).

Definition print_employee (emp : tuple) : M unit :=
  age <- calculate_age
           (mkEmployee (t_full_name emp) (t_birth_date emp) (t_gender emp)) ;;
  print (EmployeeLine emp age).

Definition display_all_employees : M unit :=
  w <- get ;;
  employees <- cursor_fetch (sql_select_distinct (bare_choice w)) ;;
  print (Rule 80) ;;
  print (Title "EMPLOYEE DIRECTORY" 80) ;;
  print (Rule 80) ;;
  print Header ;;
  print (Dashes 80) ;;
  for_each employees print_employee ;;
  print (Rule 80).

Definition first_names_male : list string :=
  ["Ivan"; "Petr"; "Sergey"; "Andrey"; "Alexey"; "Dmitry"; "Mikhail"; "Nikolay"].
Definition first_names_female : list string :=
  ["Anna"; "Maria"; "Elena"; "Olga"; "Tatyana"; "Natalia"; "Irina"; "Svetlana"].
Definition last_names : list string :=
  ["Ivanov"; "Petrov"; "Sidorov"; "Smirnov"; "Kuznetsov"; "Popov"; "Volkov";
   "Fedorov"].
Definition middle_names : list string :=
  ["Ivanovich"; "Petrovich"; "Sergeevich"; "Andreevich"; "Alexeevich";
   "Ivanovna"; "Petrovna"; "Sergeevna"; "Andreevna"; "Alexeevna"].

Definition fmt_date (year month day : nat) : string :=
  (str year ++ "-" ++ fmt_02d month ++ "-" ++ fmt_02d day)%string.

Definition fmt_name (last_name first_name middle_name : string) : string :=
  (last_name ++ " " ++ first_name ++ " " ++ middle_name)%string.

(** The body of the first loop, up to the construction of the record. *)
Definition random_employee : M Employee :=
  gender <- random_choice ["Male"; "Female"] ;;
  names <- (if String.eqb gender "Male" then
              first_name <- random_choice first_names_male ;;
              middle_name <- random_choice (firstn 5 middle_names) ;;
              ret (first_name, middle_name)
            else
              first_name <- random_choice first_names_female ;;
              middle_name <- random_choice (skipn 5 middle_names) ;;
              ret (first_name, middle_name)) ;;
  let '(first_name, middle_name) := names in
  last_name <- random_choice last_names ;;
  let full_name := fmt_name last_name first_name middle_name in
  year <- random_randint 1950 2005 ;;
  month <- random_randint 1 12 ;;
  day <- random_randint 1 28 ;;
  let birth_date := fmt_date year month day in
  ret (mkEmployee full_name birth_date gender).

(** [for i in range(count)]: append, and flush when the buffer holds 1000. *)
Fixpoint random_loop (count : nat) (employees : list Employee)
  : M (list Employee) :=
  match count with
  | 0 => ret employees
  | S count' =>
      e <- random_employee ;;
      let employees := employees ++ [e] in
      if 1000 <=? List.length employees then
        batch_save employees ;;
        conn_commit ;;
        random_loop count' []
      else random_loop count' employees
  end.

(** The first loop and the flush of what is left in the buffer. *)
Definition load_random_employees (count : nat) : M unit :=
  employees <- random_loop count [] ;;
  match employees with
  | [] => ret tt
  | _ :: _ => batch_save employees ;; conn_commit
  end.

(** The body of the second loop. *)
Definition f_employee : M Employee :=
  first_name <- random_choice first_names_male ;;
  middle_name <- random_choice (firstn 5 middle_names) ;;
  suffix <- random_choice ["isher"; "ord"; "letcher"; "ranklin"; "erguson"] ;;
  let last_name := ("F" ++ suffix)%string in
  let full_name := fmt_name last_name first_name middle_name in
  year <- random_randint 1950 2005 ;;
  month <- random_randint 1 12 ;;
  day <- random_randint 1 28 ;;
  let birth_date := fmt_date year month day in
  ret (mkEmployee full_name birth_date "Male").

(** [for i in range(n)] of the second loop; the source runs it with 100. *)
Fixpoint f_loop (n : nat) (f_employees : list Employee) : M (list Employee) :=
  match n with
  | 0 => ret f_employees
  | S n' => e <- f_employee ;; f_loop n' (f_employees ++ [e])
  end.

Definition load_f_employees : M unit :=
  f_employees <- f_loop 100 [] ;;
  batch_save f_employees ;;
  conn_commit.

(** The function has no [return]: the caller gets [None]. *)
Definition generate_random_employees (count : nat) : M pyvalue :=
  print (Generating count) ;;
  load_random_employees count ;;
  print (Text "[INFO] Generating 100 male employees with last names starting with 'F'...") ;;
  load_f_employees ;;
  print (Text "[SUCCESS] Data generation completed successfully") ;;
  ret PyNone.

Definition query_male_f_surnames : M Q :=
  start_time <- time_time ;;
  results <- cursor_fetch sql_select_male_f ;;
  end_time <- time_time ;;
  let execution_time := (end_time - start_time)%Q in
  print (Rule 80) ;;
  print (Title "MALE EMPLOYEES WITH 'F' SURNAMES" 80) ;;
  print (Rule 80) ;;
  print Header ;;
  print (Dashes 80) ;;
  for_each (firstn 10 results) print_employee ;;
  (if 10 <? List.length results
   then print (MoreRecords (List.length results - 10))
   else ret tt) ;;
  print (QueryTime execution_time) ;;
  print (Rule 80) ;;
  ret execution_time.

Definition optimize_database : M unit :=
  print (Text "[INFO] Optimizing database...") ;;
  cursor_execute_ddl sql_create_index ;;
  conn_commit ;;
  print (Text "[SUCCESS] Database optimization completed (created index on gender and full_name)").

Definition close : M unit := conn_close.

(** ** main *)

(** Python's [/] on floats. *)
Definition truediv (a b : Q) : M Q :=
  if Qeq_bool b 0 then raise (ZeroDivisionError "float division by zero")
  else ret (a / b)%Q.

Definition usage : M unit :=
  print (Text "EMPLOYEE DIRECTORY SYSTEM") ;;
  print (Rule 50) ;;
  print (Text "Usage: python app.py <mode> [arguments]") ;;
  print (Text "MODES:") ;;
  print (Text "1 - Create table") ;;
  print (Text "2 'Full Name' 'YYYY-MM-DD' 'Gender' - Add employee") ;;
  print (Text "3 - Display all employees") ;;
  print (Text "4 - Generate random employees") ;;
  print (Text "5 - Query male employees with F surnames") ;;
  print (Text "6 - Optimize database and test query") ;;
  print (Text "7 - CLEAR DATABASE (DANGER!)") ;;
  print (Rule 50).

(** The branch [mode == "6"], in its two halves: the two timed queries
    around the creation of the index, and the report. *)
Definition run_before_after : M (Q * Q) :=
  print (Text "[TEST] Running query before optimization...") ;;
  time_before <- query_male_f_surnames ;;
  optimize_database ;;
  print (Text "[TEST] Running query after optimization...") ;;
  time_after <- query_male_f_surnames ;;
  ret (time_before, time_after).

Definition report_improvement (time_before time_after : Q) : M unit :=
  print (Rule 50) ;;
  print (Title "OPTIMIZATION RESULTS" 50) ;;
  print (Rule 50) ;;
  print (Before time_before) ;;
  print (After time_after) ;;
  q <- truediv (time_before - time_after)%Q time_before ;;
  let improvement := (q * 100)%Q in
  print (Improvement improvement) ;;
  print (Rule 50).

Definition optimize_and_test : M unit :=
  times <- run_before_after ;;
  report_improvement (fst times) (snd times).

Definition dispatch (argv : list string) : M unit :=
  let mode := nth 1 argv "" in
  if String.eqb mode "1" then create_table
  else if String.eqb mode "2" then
    if List.length argv <? 5 then
      print (Text "[ERROR] Missing arguments") ;;
      print (Text "Usage: python app.py 2 'Full Name' 'YYYY-MM-DD' 'Gender'")
    else
      let full_name := nth 2 argv "" in
      let birth_date := nth 3 argv "" in
      let gender := nth 4 argv "" in
      add_employee full_name birth_date gender
  else if String.eqb mode "3" then display_all_employees
  else if String.eqb mode "4" then
    generate_random_employees (1000 * 1000) ;; ret tt
  else if String.eqb mode "5" then query_male_f_surnames ;; ret tt
  else if String.eqb mode "6" then optimize_and_test
  else if String.eqb mode "7" then
    confirm <-
      input "[WARNING] Are you sure you want to clear the database? (y/n): " ;;
    if String.eqb confirm "y" || String.eqb confirm "Y"
    then clear_database
    else print (Text "[INFO] Operation cancelled")
  else print (Text "[ERROR] Invalid mode. Please use 1-7").

Definition main (argv : list string) : M unit :=
  if List.length argv <? 2 then usage
  else
    sqlite3_connect ;;
    try_finally
      (try_except (dispatch argv) (fun e => print (ErrorLine e)))
      close.

(** ** Worlds to run the program in *)

Definition empty_db : database := mkDb None 0 None.
Definition fresh_db : database := mkDb (Some []) 0 None.

Definition world0 (d : database) : world :=
  mkWorld (mkConn d None) [] [] (2024, 6, 1) [] [] [] [] (fun _ => 0).

Definition db_after {A} (m : M A) (w : world) : database :=
  durable (conn (snd (m w))).


(** ** Vocabulary of the properties *)

Definition table_exists (d : database) : Prop := employees d <> None.

Definition idle (c : connection) : Prop := txn c = None.

Definition no_faults (w : world) : Prop := forallb negb (faults w) = true.

(** The bulk insert as the source performs it at every flush:
    [Employee.batch_save(self.cursor, employees); self.conn.commit()]. *)
Definition insert_batch (records : list Employee) : M unit :=
  batch_save records ;; conn_commit.

Definition row_count (w : world) : nat := List.length (rows (durable (conn w))).

(** The birth date parses and lies in the ranges the generator draws from. *)
Definition valid_birth_date (s : string) : bool :=
  match strptime s with
  | Some (y, m, d) =>
      (1950 <=? y) && (y <=? 2005) && (1 <=? m) && (m <=? 12)
      && (1 <=? d) && (d <=? 28)
  | None => false
  end.

Definition well_dated (e : Employee) : Prop :=
  valid_birth_date (birth_date e) = true.

(** A record of the targeted subset: male, the name begins with F. *)
Definition starts_with (c : ascii) (s : string) : bool :=
  match s with
  | String c' _ => Ascii.eqb c' c
  | EmptyString => false
  end.

Definition male_f (e : Employee) : bool :=
  String.eqb (gender e) "Male" && starts_with "F" (full_name e).

(** [BatchSave] events of a log, in order. *)
Fixpoint batches_of (l : list event) : list (list Employee) :=
  match l with
  | [] => []
  | BatchSave es :: l' => es :: batches_of l'
  | Fetchall _ :: l' => batches_of l'
  end.

Fixpoint fetches_of (l : list event) : list (list tuple) :=
  match l with
  | [] => []
  | Fetchall ts :: l' => ts :: fetches_of l'
  | BatchSave _ :: l' => fetches_of l'
  end.

(** A date the generator formats, parsed back. *)
Definition date_roundtrip (y m d : nat) : bool :=
  match strptime (fmt_date y m d) with
  | Some (y', m', d') => (y' =? y) && (m' =? m) && (d' =? d)
  | None => false
  end.

Definition batch_shaped (batches : list (list Employee)) : Prop :=
  Forall (fun b => List.length b = 1000) (removelast batches)
  /\ Forall (fun b => 1 <= List.length b <= 1000) batches.

(** The claim that the bulk load hands back the number of rows it inserted. *)
Definition returns_inserted_count (count : nat) (w : world) : Prop :=
  let (r, w') := generate_random_employees count w in
  r = Ok (PyInt (Z.of_nat (row_count w' - row_count w))).

Definition sample_records : list Employee :=
  [mkEmployee "Ivanov Ivan Ivanovich" "1990-05-15" "Male";
   mkEmployee "Popov Anna Petrovna" "1985-11-02" "Female"].

(** Fault after 1000 inserted rows and their commit. *)
Definition faulty_world : world :=
  set_faults (repeat false 1001 ++ [true]) (world0 fresh_db).

Definition group_key (g : list row) : key := key_of (cols (hd null_row g)).

Definition name_le (a b : tuple) : Prop :=
  String.leb (t_full_name a) (t_full_name b) = true.

(** A group of GROUP BY: rows that share one key. *)
Definition homogeneous (g : list row) : Prop :=
  g <> [] /\ Forall (fun r => key_of (cols r) = group_key g) g.

(** A table with the same person stored twice, once under each gender. *)
Definition twice_db : database :=
  mkDb (Some [mkRow 1 ("Popov Ivan Petrovich", "1990-05-15", "Male");
              mkRow 2 ("Ivanov Ivan Ivanovich", "1980-01-02", "Male");
              mkRow 3 ("Popov Ivan Petrovich", "1990-05-15", "Female");
              mkRow 4 ("Ivanov Ivan Ivanovich", "1980-01-02", "Male")])
       4 None.

(** What every database the statements can build satisfies: keys are
    unique and never above the AUTOINCREMENT counter, and the index, when it
    exists, has one entry per row. *)
Definition well_formed (d : database) : Prop :=
  NoDup (map rowid (rows d))
  /\ Forall (fun r => (rowid r <= sqlite_sequence d)%Z) (rows d)
  /\ match idx_gender_name d with
     | None => True
     | Some ix => Permutation ix (map entry_of (rows d))
     end.

(** The [n]-th clock sample a run will take. *)
Definition sample (n : nat) (w : world) : instant :=
  hd (mkInstant 0 0) (Nat.iter n (@tl instant) (clock w)).

(** The claim that both elapsed durations of the comparison are
    non-negative and the two result sets are equal as sets. *)
Definition compare_claim (w : world) : Prop :=
  forall tb ta w',
    run_before_after w = (Ok (tb, ta), w') ->
    (exists ts1 ts2, log w' = log w ++ [Fetchall ts1; Fetchall ts2]
                     /\ Permutation ts1 ts2)
    /\ (0 <= tb)%Q /\ (0 <= ta)%Q.

(** The claim that the elapsed duration is the difference of two readings
    of the monotonic clock. *)
Definition measured_by_monotonic_clock (w : world) : Prop :=
  forall t w',
    query_male_f_surnames w = (Ok t, w') ->
    (t == monotonic (sample 1 w) - monotonic (sample 0 w))%Q.


(** An empty table, and a wall clock set back by 50 seconds between the
    first two samples. *)
Definition set_back_world : world :=
  set_clock [mkInstant 0 100; mkInstant 1 50; mkInstant 2 50; mkInstant 3 51]
            (world0 fresh_db).


(** A table of three men, two of them with a surname in F stored in the
    order Ford, Fisher, and a steady clock. *)
Definition surnames_db : database :=
  mkDb (Some [mkRow 1 ("Ford Petr Ivanovich", "1970-01-01", "Male");
              mkRow 2 ("Fisher Ivan Petrovich", "1980-02-02", "Male");
              mkRow 3 ("Popov Ivan Petrovich", "1990-05-15", "Male")])
       3 None.

Definition surnames_world : world :=
  set_clock [mkInstant 0 10; mkInstant 2 12; mkInstant 5 20; mkInstant 6 21]
            (world0 surnames_db).

(** A clock too coarse to tell the two readings of the first query apart. *)
Definition coarse_world : world :=
  set_clock [mkInstant 0 10; mkInstant 0 10; mkInstant 5 20; mkInstant 6 21]
            (world0 fresh_db).

(** A property of the world that a piece of code keeps, whatever its
    outcome. *)
Definition keeps {A} (P : world -> Prop) (m : M A) : Prop :=
  forall w, P w -> P (snd (m w)).

(** Both the committed database and the working copy are well formed. *)
Definition sound_conn (c : connection) : Prop :=
  well_formed (durable c) /\ well_formed (working c).

Definition sound (w : world) : Prop := sound_conn (conn w).

(** The WHERE clause of the filter query, on a result tuple. *)
Definition matches_male_f (t : tuple) : bool :=
  where_male_f (t_gender t) (t_full_name t).

(** The stored birth date is one [strptime] accepts. *)
Definition date_parses (t : tuple) : bool :=
  match strptime (t_birth_date t) with
  | Some _ => true
  | None => false
  end.

(** The order of calendar dates. *)
Definition date_le (a b : date) : Prop :=
  let '(y1, m1, d1) := a in
  let '(y2, m2, d2) := b in
  y1 < y2 \/ (y1 = y2 /\ (m1 < m2 \/ (m1 = m2 /\ d1 <= d2))).

(** The same world on another day. *)
Definition on_day (t : date) (w : world) : world :=
  mkWorld (conn w) (rng w) (clock w) t (faults w) (stdin w) (stdout w) (log w)
          (bare_choice w).

(** A printed line that shows the given tuple, with some age. *)
Definition shows (l : line) (t : tuple) : Prop :=
  exists age, l = EmployeeLine t age.

(** No transaction is open and the table holds the given rows. *)
Definition settled (rs : option (list row)) (c : connection) : Prop :=
  idle c /\ employees (durable c) = rs.

(** A table of one matching row, with the index in place. *)
Definition indexed_db : database :=
  mkDb (Some [mkRow 1 ("Ford Petr Ivanovich", "1970-01-01", "Male")]) 1
       (Some [("Male", "Ford Petr Ivanovich", 1%Z)]).

(** ** The monad *)

Lemma bind_ok {A B} (m : M A) (k : A -> M B) w a w' :
  m w = (Ok a, w') -> bind m k w = k a w'.
Proof. intros H. unfold bind. rewrite H. reflexivity. Qed.

Lemma bind_raise {A B} (m : M A) (k : A -> M B) w e w' :
  m w = (Raise e, w') -> bind m k w = (Raise e, w').
Proof. intros H. unfold bind. rewrite H. reflexivity. Qed.

Lemma bind_assoc {A B C} (m : M A) (k : A -> M B) (h : B -> M C) w :
  bind (bind m k) h w = bind m (fun a => bind (k a) h) w.
Proof. unfold bind. destruct (m w) as [[a|e] w']; reflexivity. Qed.

(** ** Dates *)

Lemma dates_roundtrip_true :
  forallb (fun y =>
    forallb (fun m =>
      forallb (fun d => date_roundtrip y m d) (seq 1 28)) (seq 1 12))
    (seq 1950 56) = true.
Proof. vm_compute. reflexivity. Qed.

Lemma strptime_fmt_date y m d :
  1950 <= y <= 2005 -> 1 <= m <= 12 -> 1 <= d <= 28 ->
  strptime (fmt_date y m d) = Some (y, m, d).
Proof.
  intros Hy Hm Hd.
  pose proof dates_roundtrip_true as H.
  rewrite forallb_forall in H. specialize (H y).
  rewrite in_seq in H. specialize (H ltac:(lia)).
  rewrite forallb_forall in H. specialize (H m).
  rewrite in_seq in H. specialize (H ltac:(lia)).
  rewrite forallb_forall in H. specialize (H d).
  rewrite in_seq in H. specialize (H ltac:(lia)).
  unfold date_roundtrip in H.
  destruct (strptime (fmt_date y m d)) as [[[y' m'] d']|]; [|discriminate].
  apply andb_prop in H. destruct H as [H Hd'].
  apply andb_prop in H. destruct H as [Hy' Hm'].
  apply Nat.eqb_eq in Hy', Hm', Hd'. subst. reflexivity.
Qed.

Lemma valid_fmt_date y m d :
  1950 <= y <= 2005 -> 1 <= m <= 12 -> 1 <= d <= 28 ->
  valid_birth_date (fmt_date y m d) = true.
Proof.
  intros Hy Hm Hd. unfold valid_birth_date.
  rewrite strptime_fmt_date by assumption.
  repeat (apply andb_true_intro; split); apply Nat.leb_le; lia.
Qed.

Lemma randint_range a b r : a <= b -> a <= a + r mod (b - a + 1) <= b.
Proof.
  intros Hab. pose proof (Nat.mod_upper_bound r (b - a + 1)). lia.
Qed.

(** ** The generator *)

Lemma random_employee_run w :
  exists e g,
    random_employee w = (Ok e, set_rng g w)
    /\ valid_birth_date (birth_date e) = true.
Proof.
  unfold random_employee, random_randint, random_choice, random_next, bind, ret.
  cbn [fst snd rng set_rng].
  destruct (String.eqb _ "Male");
    (eexists; eexists; split; [reflexivity|]);
    cbn [birth_date]; apply valid_fmt_date; apply randint_range; lia.
Qed.

Lemma f_employee_run w :
  exists e g,
    f_employee w = (Ok e, set_rng g w)
    /\ male_f e = true
    /\ valid_birth_date (birth_date e) = true.
Proof.
  unfold f_employee, random_randint, random_choice, random_next, bind, ret.
  cbn [fst snd rng set_rng].
  eexists; eexists; split; [reflexivity|]. split.
  - reflexivity.
  - cbn [birth_date]; apply valid_fmt_date; apply randint_range; lia.
Qed.

(** ** The engine: inserts and transactions *)

Lemma sql_insert_some t d :
  table_exists d ->
  exists d', sql_insert t d = Some d'.
Proof.
  unfold table_exists, sql_insert. destruct (employees d); [eauto|congruence].
Qed.

Lemma sql_insert_contents t d d' :
  sql_insert t d = Some d' ->
  contents d' = contents d ++ [t] /\ table_exists d'.
Proof.
  unfold sql_insert, contents, rows, table_exists.
  destruct (employees d) as [rs|]; [|discriminate].
  intros H. injection H as <-. cbn [employees].
  rewrite map_app. split; [reflexivity|discriminate].
Qed.

Lemma no_faults_hd w : no_faults w -> hd false (faults w) = false.
Proof.
  unfold no_faults. destruct (faults w) as [|b f]; [reflexivity|].
  cbn. intros H. apply andb_prop in H. destruct b; [destruct H; discriminate|reflexivity].
Qed.

Lemma no_faults_tl w : no_faults w -> forallb negb (tl (faults w)) = true.
Proof.
  unfold no_faults. destruct (faults w) as [|b f]; [reflexivity|].
  cbn. intros H. apply andb_prop in H. apply H.
Qed.

Lemma storage_fault_outcome w r w' :
  storage_fault w = (r, w') ->
  w' = set_faults (tl (faults w)) w
  /\ (no_faults w -> r = Ok tt).
Proof.
  unfold storage_fault. intros H. split.
  - destruct (hd false (faults w)); congruence.
  - intros Hn. rewrite (no_faults_hd _ Hn) in H. congruence.
Qed.

Lemma step_insert_outcome t w d0 r w' :
  txn (conn w) = Some d0 ->
  step_insert t w = (r, w') ->
  durable (conn w') = durable (conn w)
  /\ log w' = log w
  /\ match r with
     | Ok _ => exists d1, txn (conn w') = Some d1 /\ contents d1 = contents d0 ++ [t]
                          /\ table_exists d1
     | Raise _ => exists d1, txn (conn w') = Some d1
     end
  /\ (table_exists d0 -> no_faults w -> r = Ok tt /\ no_faults w').
Proof.
  intros Ht. unfold step_insert, bind.
  destruct (storage_fault w) as [[[]|e] w1] eqn:Ef;
    apply storage_fault_outcome in Ef; destruct Ef as [-> Hq].
  - unfold get, working. cbn [conn set_faults]. rewrite Ht.
    destruct (sql_insert t d0) as [d1|] eqn:Ei.
    + unfold modify. intros H. injection H as <- <-.
      cbn [conn set_conn durable txn log set_faults].
      destruct (sql_insert_contents _ _ _ Ei) as [Hc He].
      split; [reflexivity|]. split; [reflexivity|]. split; [eauto|].
      intros _ Hn. split; [reflexivity|].
      unfold no_faults. cbn [faults set_conn set_faults]. now apply no_faults_tl.
    + unfold raise. intros H. injection H as <- <-. cbn [conn set_faults log].
      split; [reflexivity|]. split; [reflexivity|]. split; [eauto|].
      intros He. destruct (sql_insert_some t d0 He). congruence.
  - intros H. injection H as <- <-. cbn [conn set_faults log].
    split; [reflexivity|]. split; [reflexivity|]. split; [eauto|].
    intros _ Hn. specialize (Hq Hn). discriminate.
Qed.

Lemma step_all_outcome data : forall w d0 r w',
  txn (conn w) = Some d0 ->
  step_all data w = (r, w') ->
  durable (conn w') = durable (conn w)
  /\ log w' = log w
  /\ match r with
     | Ok _ => exists d1, txn (conn w') = Some d1 /\ contents d1 = contents d0 ++ data
                          /\ (table_exists d0 -> table_exists d1)
     | Raise _ => exists d1, txn (conn w') = Some d1
     end
  /\ (table_exists d0 -> no_faults w -> r = Ok tt /\ no_faults w').
Proof.
  induction data as [|t data IH]; intros w d0 r w' Ht.
  - cbn [step_all]. unfold ret. intros H. injection H as <- <-.
    split; [reflexivity|]. split; [reflexivity|]. split.
    + exists d0. rewrite app_nil_r. auto.
    + auto.
  - cbn [step_all]. unfold bind.
    destruct (step_insert t w) as [[[]|e] w1] eqn:E1;
      destruct (step_insert_outcome _ _ _ _ _ Ht E1) as (Hd & Hl & Hr & Hq).
    + destruct Hr as (d1 & Ht1 & Hc1 & He1). intros E2.
      destruct (IH _ _ _ _ Ht1 E2) as (Hd2 & Hl2 & Hr2 & Hq2).
      split; [congruence|]. split; [congruence|]. split.
      * destruct r; [|exact Hr2].
        destruct Hr2 as (d2 & Ht2 & Hc2 & He2). exists d2.
        split; [exact Ht2|]. split; [|auto].
        rewrite Hc2, Hc1, <- app_assoc. reflexivity.
      * intros He Hn. destruct (Hq He Hn) as [_ Hn1]. auto.
    + intros H. injection H as <- <-.
      split; [exact Hd|]. split; [exact Hl|]. split; [exact Hr|].
      intros He Hn. destruct (Hq He Hn). discriminate.
Qed.

Lemma batch_save_outcome es w r w' :
  batch_save es w = (r, w') ->
  durable (conn w') = durable (conn w)
  /\ log w' = log w ++ [BatchSave es]
  /\ match r with
     | Ok _ => exists d1, txn (conn w') = Some d1
                          /\ contents d1 = contents (working (conn w)) ++ map as_tuple es
                          /\ table_exists d1
     | Raise _ => True
     end
  /\ (table_exists (working (conn w)) -> no_faults w -> r = Ok tt /\ no_faults w').
Proof.
  unfold batch_save, record, cursor_executemany_insert, prepare_insert, begin,
    bind, modify, get, raise, ret.
  cbn [conn set_log set_conn].
  destruct (employees (working (conn w))) as [rs|] eqn:Ee.
  - set (w1 := set_conn _ _).
    intros E. 
    assert (Ht : txn (conn w1) = Some (working (conn w))) by reflexivity.
    assert (He : table_exists (working (conn w)))
      by (unfold table_exists; congruence).
    destruct (step_all_outcome _ _ _ _ _ Ht E) as (Hd & Hl & Hr & Hq).
    split; [exact Hd|]. split; [exact Hl|]. split.
    + destruct r; [|exact I]. destruct Hr as (d1 & Ht1 & Hc1 & He1).
      exists d1. auto.
    + intros _ Hn. apply Hq; assumption.
  - intros H. injection H as <- <-. cbn [conn set_log log].
    split; [reflexivity|]. split; [reflexivity|]. split; [exact I|].
    unfold table_exists. congruence.
Qed.

Lemma conn_commit_outcome w r w' :
  conn_commit w = (r, w') ->
  log w' = log w
  /\ match r with
     | Ok _ => durable (conn w') = working (conn w) /\ idle (conn w')
     | Raise _ => durable (conn w') = durable (conn w)
     end
  /\ (no_faults w -> r = Ok tt /\ no_faults w').
Proof.
  unfold conn_commit, bind, get, ret, modify, working, idle.
  destruct (txn (conn w)) as [d|] eqn:Et.
  - destruct (storage_fault w) as [[[]|e] w1] eqn:Ef;
      apply storage_fault_outcome in Ef; destruct Ef as [-> Hq];
      intros H; injection H as <- <-; cbn [conn set_conn set_faults log durable txn].
    + split; [reflexivity|]. split; [auto|].
      intros Hn. split; [reflexivity|]. 
      unfold no_faults. cbn [faults set_conn set_faults]. now apply no_faults_tl.
    + split; [reflexivity|]. split; [reflexivity|].
      intros Hn. specialize (Hq Hn). discriminate.
  - intros H; injection H as <- <-. auto.
Qed.

Lemma insert_batch_outcome es w r w' :
  idle (conn w) ->
  insert_batch es w = (r, w') ->
  log w' = log w ++ [BatchSave es]
  /\ match r with
     | Ok _ => idle (conn w')
               /\ contents (durable (conn w'))
                  = contents (durable (conn w)) ++ map as_tuple es
               /\ table_exists (durable (conn w'))
     | Raise _ => durable (conn w') = durable (conn w)
     end
  /\ (table_exists (durable (conn w)) -> no_faults w -> r = Ok tt /\ no_faults w').
Proof.
  intros Hi. unfold insert_batch, bind.
  assert (Hw : working (conn w) = durable (conn w))
    by (unfold working; rewrite Hi; reflexivity).
  destruct (batch_save es w) as [[[]|e] w1] eqn:E1;
    destruct (batch_save_outcome _ _ _ _ E1) as (Hd & Hl & Hr & Hq);
    rewrite Hw in *.
  - destruct Hr as (d1 & Ht1 & Hc1 & He1). intros E2.
    destruct (conn_commit_outcome _ _ _ E2) as (Hl2 & Hr2 & Hq2).
    assert (Hw1 : working (conn w1) = d1)
      by (unfold working; rewrite Ht1; reflexivity).
    split; [congruence|]. split.
    + destruct r.
      * destruct Hr2 as [Hd2 Hi2]. rewrite Hd2, Hw1. auto.
      * congruence.
    + intros He Hn. destruct (Hq He Hn) as [_ Hn1]. auto.
  - intros H. injection H as <- <-.
    split; [exact Hl|]. split; [exact Hd|].
    intros He Hn. destruct (Hq He Hn). discriminate.
Qed.


Lemma flush_as_insert_batch {A} es (k : M A) w :
  (batch_save es ;; conn_commit ;; k) w = (insert_batch es ;; k) w.
Proof. unfold insert_batch. rewrite bind_assoc. reflexivity. Qed.

Lemma random_loop_outcome n : forall buf w r w',
  idle (conn w) -> List.length buf < 1000 ->
  random_loop n buf w = (r, w') ->
  exists batches,
    Forall (fun b => List.length b = 1000) batches
    /\ contents (durable (conn w'))
       = contents (durable (conn w)) ++ map as_tuple (List.concat batches)
    /\ (table_exists (durable (conn w)) -> table_exists (durable (conn w')))
    /\ match r with
       | Ok buf' =>
           idle (conn w') /\ List.length buf' < 1000
           /\ log w' = log w ++ map BatchSave batches
           /\ exists gens, List.length gens = n /\ Forall well_dated gens
                           /\ List.concat batches ++ buf' = buf ++ gens
       | Raise _ => List.length (List.concat batches) <= List.length buf + n
       end
    /\ (table_exists (durable (conn w)) -> no_faults w ->
        (exists buf', r = Ok buf') /\ no_faults w').
Proof.
  induction n as [|n IH]; intros buf w r w' Hi Hb.
  - cbn [random_loop]. unfold ret. intros H. injection H as <- <-.
    exists []. cbn [List.concat map]. rewrite !app_nil_r.
    split; [constructor|]. split; [reflexivity|]. split; [auto|]. split.
    + split; [exact Hi|]. split; [exact Hb|]. split; [reflexivity|].
      exists []. rewrite app_nil_r. auto.
    + eauto.
  - cbn [random_loop].
    destruct (random_employee_run w) as (e & g & Er & Hv).
    rewrite (bind_ok _ _ _ _ _ Er).
    destruct (1000 <=? List.length (buf ++ [e])) eqn:Efull.
    + apply Nat.leb_le in Efull. rewrite length_app in Efull. cbn in Efull.
      rewrite flush_as_insert_batch. unfold bind at 1.
      destruct (insert_batch (buf ++ [e]) (set_rng g w)) as [[[]|x] w1] eqn:Eb;
        destruct (insert_batch_outcome _ (set_rng g w) _ _ Hi Eb) as (Hl & Hr & Hq);
        cbn [conn log set_rng] in Hl, Hr, Hq;
        change (no_faults (set_rng g w)) with (no_faults w) in Hq.
      * destruct Hr as (Hi1 & Hc1 & He1). intros E2.
        destruct (IH [] w1 r w' Hi1 ltac:(cbn; lia) E2)
          as (bs & Hbs & Hc & He & Hr & Hq2).
        exists ((buf ++ [e]) :: bs). cbn [List.concat].
        split; [constructor; [rewrite length_app; cbn; lia|exact Hbs]|].
        split; [rewrite Hc, Hc1, (map_app _ (buf ++ [e])), <- app_assoc; reflexivity|].
        split; [auto|]. split.
        -- destruct r as [buf'|x]; [|rewrite !length_app in *; cbn in *; lia].
           destruct Hr as (Hi' & Hb' & Hl' & gens & Hg1 & Hg2 & Hg3).
           split; [exact Hi'|]. split; [exact Hb'|]. split.
           ++ rewrite Hl', Hl. cbn [map]. rewrite <- app_assoc. reflexivity.
           ++ exists (e :: gens). split; [cbn; lia|].
              split; [constructor; assumption|].
              rewrite <- !app_assoc. rewrite Hg3. reflexivity.
        -- intros Hex Hn. destruct (Hq Hex Hn) as [_ Hn1]. auto.
      * intros H. injection H as <- <-. exists []. cbn [List.concat map].
        rewrite app_nil_r.
        split; [constructor|]. split; [rewrite Hr; reflexivity|].
        split; [rewrite Hr; auto|]. split; [cbn; lia|].
        intros Hex Hn. destruct (Hq Hex Hn). discriminate.
    + apply Nat.leb_gt in Efull. intros E2.
      destruct (IH (buf ++ [e]) (set_rng g w) r w' Hi Efull E2)
        as (bs & Hbs & Hc & He & Hr & Hq2).
      cbn [conn log set_rng] in Hc, He, Hr, Hq2.
      change (no_faults (set_rng g w)) with (no_faults w) in Hq2.
      exists bs. split; [exact Hbs|]. split; [exact Hc|]. split; [exact He|].
      split; [|exact Hq2].
      destruct r as [buf'|x]; [|rewrite length_app in Hr; cbn in Hr; lia].
      destruct Hr as (Hi' & Hb' & Hl' & gens & Hg1 & Hg2 & Hg3).
      split; [exact Hi'|]. split; [exact Hb'|]. split; [exact Hl'|].
      exists (e :: gens). split; [cbn; lia|].
      split; [constructor; assumption|].
      rewrite Hg3, <- app_assoc. reflexivity.
Qed.

(** ** The two phases of the generation *)

Lemma Forall_removelast {A} (P : A -> Prop) l :
  Forall P l -> Forall P (removelast l).
Proof.
  induction 1 as [|x l Hx Hl IH]; [constructor|].
  cbn [removelast]. destruct l; [constructor|]. constructor; assumption.
Qed.

Lemma length_concat_full (batches : list (list Employee)) :
  Forall (fun b => List.length b = 1000) batches ->
  List.length (List.concat batches) = 1000 * List.length batches.
Proof.
  induction 1 as [|b bs Hb Hbs IH]; [reflexivity|].
  cbn [List.concat List.length]. rewrite length_app, IH, Hb. lia.
Qed.

Lemma full_batches_shaped batches :
  Forall (fun b => List.length b = 1000) batches -> batch_shaped batches.
Proof.
  intros H. split; [now apply Forall_removelast|].
  eapply Forall_impl; [|exact H]. cbn. intros b Hb. lia.
Qed.

Lemma load_random_employees_outcome n w r w' :
  idle (conn w) ->
  load_random_employees n w = (r, w') ->
  exists batches,
    contents (durable (conn w'))
    = contents (durable (conn w)) ++ map as_tuple (List.concat batches)
    /\ (table_exists (durable (conn w)) -> table_exists (durable (conn w')))
    /\ match r with
       | Ok _ =>
           idle (conn w') /\ batch_shaped batches
           /\ log w' = log w ++ map BatchSave batches
           /\ List.length (List.concat batches) = n
           /\ Forall well_dated (List.concat batches)
       | Raise _ =>
           Forall (fun b => List.length b = 1000) batches
           /\ List.length (List.concat batches) <= n
       end
    /\ (table_exists (durable (conn w)) -> no_faults w ->
        r = Ok tt /\ no_faults w').
Proof.
  intros Hi. unfold load_random_employees, bind.
  destruct (random_loop n [] w) as [[buf|x] w1] eqn:E1;
    destruct (random_loop_outcome n [] w _ _ Hi ltac:(cbn; lia) E1)
      as (bs & Hbs & Hc & He & Hr & Hq).
  - destruct Hr as (Hi1 & Hb1 & Hl1 & gens & Hg1 & Hg2 & Hg3).
    cbn [app] in Hg3. destruct buf as [|e buf].
    + unfold ret. intros H. injection H as <- <-.
      rewrite app_nil_r in Hg3. subst gens.
      exists bs. split; [exact Hc|]. split; [exact He|]. split.
      * auto using full_batches_shaped.
      * intros Hex Hn. destruct (Hq Hex Hn) as [_ Hn1]. auto.
    + change (batch_save (e :: buf) ;; conn_commit) with (insert_batch (e :: buf)).
      intros E2.
      destruct (insert_batch_outcome _ _ _ _ Hi1 E2) as (Hl2 & Hr2 & Hq2).
      destruct r as [[]|x].
      * destruct Hr2 as (Hi2 & Hc2 & He2).
        exists (bs ++ [e :: buf]).
        rewrite concat_app. cbn [List.concat]. rewrite app_nil_r, Hg3.
        split; [rewrite Hc2, Hc, <- app_assoc, <- map_app, Hg3; reflexivity|].
        split; [auto|]. split.
        -- split; [exact Hi2|]. split.
           ++ split; [rewrite removelast_last; exact Hbs|].
              apply Forall_app. split.
              ** eapply Forall_impl; [|exact Hbs]. cbn. intros b Hb. lia.
              ** constructor; [cbn in *; lia|constructor].
           ++ split; [rewrite Hl2, Hl1, map_app, <- app_assoc; reflexivity|].
              auto.
        -- intros Hex Hn. destruct (Hq Hex Hn) as [_ Hn1]. apply Hq2; auto.
      * exists bs. split; [rewrite Hr2; exact Hc|].
        split; [rewrite Hr2; exact He|]. split.
        -- split; [exact Hbs|].
           apply (f_equal (@List.length _)) in Hg3. rewrite length_app in Hg3. lia.
        -- intros Hex Hn. destruct (Hq Hex Hn) as [_ Hn1].
           destruct (Hq2 (He Hex) Hn1). discriminate.
  - intros H. injection H as <- <-.
    exists bs. split; [exact Hc|]. split; [exact He|]. split.
    + split; [exact Hbs|]. cbn in Hr. exact Hr.
    + intros Hex Hn. destruct (Hq Hex Hn) as [[buf' Hbuf] _]. discriminate.
Qed.

Lemma set_rng_id w : set_rng (rng w) w = w.
Proof. destruct w; reflexivity. Qed.

Lemma f_loop_run n : forall acc w,
  exists gens g,
    f_loop n acc w = (Ok (acc ++ gens), set_rng g w)
    /\ List.length gens = n
    /\ Forall (fun e => male_f e = true) gens
    /\ Forall well_dated gens.
Proof.
  induction n as [|n IH]; intros acc w.
  - exists [], (rng w). cbn [f_loop]. unfold ret.
    rewrite app_nil_r, set_rng_id. auto.
  - cbn [f_loop].
    destruct (f_employee_run w) as (e & g & Ee & Hm & Hv).
    rewrite (bind_ok _ _ _ _ _ Ee).
    destruct (IH (acc ++ [e]) (set_rng g w)) as (gens & g' & El & Hn & Hms & Hvs).
    exists (e :: gens), g'. rewrite El, <- app_assoc.
    split; [reflexivity|]. split; [cbn; lia|].
    split; constructor; assumption.
Qed.

Lemma load_f_employees_outcome w r w' :
  idle (conn w) ->
  load_f_employees w = (r, w') ->
  exists fs,
    List.length fs = 100
    /\ Forall (fun e => male_f e = true) fs
    /\ log w' = log w ++ [BatchSave fs]
    /\ match r with
       | Ok _ => idle (conn w')
                 /\ contents (durable (conn w'))
                    = contents (durable (conn w)) ++ map as_tuple fs
       | Raise _ => durable (conn w') = durable (conn w)
       end
    /\ (table_exists (durable (conn w)) -> no_faults w ->
        r = Ok tt /\ no_faults w').
Proof.
  intros Hi. unfold load_f_employees.
  destruct (f_loop_run 100 [] w) as (fs & g & El & Hn & Hm & _).
  rewrite (bind_ok _ _ _ _ _ El). cbn [app].
  change (batch_save fs ;; conn_commit) with (insert_batch fs).
  intros E.
  destruct (insert_batch_outcome _ (set_rng g w) _ _ Hi E) as (Hl & Hr & Hq).
  exists fs. split; [exact Hn|]. split; [exact Hm|]. split; [exact Hl|].
  split; [|exact Hq].
  destruct r; [|exact Hr]. destruct Hr as (Hi' & Hc & _). auto.
Qed.

Lemma print_run l w : print l w = (Ok tt, set_stdout (stdout w ++ [l]) w).
Proof. reflexivity. Qed.

Lemma row_count_contents w :
  row_count w = List.length (contents (durable (conn w))).
Proof. unfold row_count, contents. now rewrite length_map. Qed.

Lemma generate_random_employees_outcome count w r w' :
  idle (conn w) ->
  generate_random_employees count w = (r, w') ->
  match r with
  | Ok v => v = PyNone /\ row_count w' = row_count w + count + 100
  | Raise _ =>
      exists k, row_count w' = row_count w + k
                /\ (k = count \/ (k mod 1000 = 0 /\ k <= count))
  end
  /\ (table_exists (durable (conn w)) -> no_faults w -> r = Ok PyNone).
Proof.
  intros Hi. unfold generate_random_employees.
  rewrite (bind_ok _ _ _ _ _ (print_run _ _)).
  set (w0 := set_stdout _ w). unfold bind at 1.
  destruct (load_random_employees count w0) as [[[]|x] w1] eqn:E1;
    destruct (load_random_employees_outcome _ w0 _ _ Hi E1)
      as (bs & Hc & He & Hr & Hq);
    cbn [w0 conn set_stdout] in Hc, He, Hq;
    change (no_faults w0) with (no_faults w) in Hq.
  - destruct Hr as (Hi1 & _ & _ & Hn & _).
    rewrite (bind_ok _ _ _ _ _ (print_run _ _)).
    set (w2 := set_stdout _ w1). unfold bind at 1.
    destruct (load_f_employees w2) as [[[]|x] w3] eqn:E2;
      destruct (load_f_employees_outcome w2 _ _ Hi1 E2)
        as (fs & Hfn & _ & _ & Hr2 & Hq2);
      cbn [w2 conn set_stdout] in Hr2, Hq2;
      change (no_faults w2) with (no_faults w1) in Hq2.
    + rewrite (bind_ok _ _ _ _ _ (print_run _ _)). unfold ret.
      intros H. injection H as <- <-. split.
      * split; [reflexivity|]. destruct Hr2 as [_ Hc2].
        rewrite !row_count_contents. cbn [conn set_stdout].
        rewrite Hc2, Hc, !length_app, !length_map. lia.
      * auto.
    + intros H. injection H as <- <-. split.
      * exists count. split; [|auto].
        rewrite !row_count_contents, Hr2, Hc, length_app, length_map. lia.
      * intros Hex Hnf. destruct (Hq Hex Hnf) as [_ Hn1].
        destruct (Hq2 (He Hex) Hn1). discriminate.
  - intros H. injection H as <- <-. destruct Hr as [Hbs Hle]. split.
    + exists (List.length (List.concat bs)). split.
      * rewrite !row_count_contents, Hc, length_app, length_map. reflexivity.
      * right. split; [|exact Hle].
        rewrite (length_concat_full _ Hbs), Nat.mul_comm. apply Nat.Div0.mod_mul.
    + intros Hex Hnf. destruct (Hq Hex Hnf). discriminate.
Qed.

(** ** Properties of the load path *)

Lemma valid_birth_date_spec s :
  valid_birth_date s = true ->
  exists y m d, strptime s = Some (y, m, d)
                /\ 1950 <= y <= 2005 /\ 1 <= m <= 12 /\ 1 <= d <= 28.
Proof.
  unfold valid_birth_date.
  destruct (strptime s) as [[[y m] d]|]; [|discriminate].
  intros H. repeat (apply andb_prop in H; destruct H as [H ?]).
  exists y, m, d. rewrite !Nat.leb_le in *. auto with arith.
Qed.

Lemma batches_of_app l bs :
  batches_of (l ++ map BatchSave bs) = batches_of l ++ bs.
Proof.
  induction l as [|[es|ts] l IH]; cbn [app batches_of].
  - induction bs as [|b bs IH]; cbn; congruence.
  - now rewrite IH.
  - exact IH.
Qed.

(** C1: for every batch of records, [insert_batch] ([Employee.batch_save]
    followed by [commit]) either succeeds, and then the committed table has
    exactly the old rows followed by the [len(records)] new ones, or fails,
    and then the committed table is the one before the call (also after the
    connection is closed, as [main] does); at no point of the write is
    a part of the batch committed. *)
Theorem insert_batch_all_or_nothing (records : list Employee) (w : world) :
  idle (conn w) ->
  let (r, w') := insert_batch records w in
  (forall k, durable (conn (snd (batch_save (firstn k records) w)))
             = durable (conn w))
  /\ match r with
     | Ok _ =>
         contents (durable (conn w'))
         = contents (durable (conn w)) ++ map as_tuple records
         /\ row_count w' = row_count w + List.length records
     | Raise _ =>
         durable (conn w') = durable (conn w)
         /\ working (conn (snd (close w'))) = durable (conn w)
     end.
Proof.
  intros Hi. destruct (insert_batch records w) as [r w'] eqn:E.
  destruct (insert_batch_outcome _ _ _ _ Hi E) as (_ & Hr & _). split.
  - intros k. destruct (batch_save (firstn k records) w) as [r1 w1] eqn:E1.
    now destruct (batch_save_outcome _ _ _ _ E1) as (Hd & _).
  - destruct r as [[]|x].
    + destruct Hr as (_ & Hc & _). split; [exact Hc|].
      rewrite !row_count_contents, Hc, length_app, length_map. reflexivity.
    + split; [exact Hr|]. cbn. exact Hr.
Qed.

(** An instance: two records into an empty table. *)
Lemma insert_batch_all_or_nothing_witness :
  idle (conn (world0 fresh_db))
  /\ let (r, w') := insert_batch sample_records (world0 fresh_db) in
     (forall k, durable (conn (snd (batch_save (firstn k sample_records)
                                               (world0 fresh_db))))
                = durable (conn (world0 fresh_db)))
     /\ match r with
        | Ok _ =>
            contents (durable (conn w'))
            = contents (durable (conn (world0 fresh_db)))
              ++ map as_tuple sample_records
            /\ row_count w' = row_count (world0 fresh_db)
                              + List.length sample_records
        | Raise _ =>
            durable (conn w') = durable (conn (world0 fresh_db))
            /\ working (conn (snd (close w'))) = durable (conn (world0 fresh_db))
        end.
Proof.
  split; [reflexivity|].
  apply (insert_batch_all_or_nothing sample_records (world0 fresh_db)).
  reflexivity.
Defined.

(** A batch that meets a storage fault at its second row: nothing of it is
    committed, and closing the connection drops the first row too. *)
Example insert_batch_fault :
  let w := set_faults [false; true] (world0 fresh_db) in
  let w' := snd (insert_batch sample_records w) in
  fst (insert_batch sample_records w) = Raise (OperationalError "disk I/O error")
  /\ row_count w' = 0
  /\ List.length (rows (working (conn w'))) = 1
  /\ List.length (rows (working (conn (snd (close w'))))) = 0.
Proof. repeat split. Qed.

(** ** What the load prints and what it hands to [batch_save] *)

Lemma bind_stdout {A B} (m : M A) (k : A -> M B) :
  (forall w, stdout (snd (m w)) = stdout w) ->
  (forall a w, stdout (snd (k a w)) = stdout w) ->
  forall w, stdout (snd ((x <- m ;; k x) w)) = stdout w.
Proof.
  intros Hm Hk w. unfold bind. specialize (Hm w).
  destruct (m w) as [[a|e] w1]; cbn [snd] in *; [|exact Hm].
  rewrite Hk. exact Hm.
Qed.

Lemma storage_fault_stdout w : stdout (snd (storage_fault w)) = stdout w.
Proof. unfold storage_fault. destruct (hd false (faults w)); reflexivity. Qed.

Lemma step_insert_stdout t w : stdout (snd (step_insert t w)) = stdout w.
Proof.
  unfold step_insert. apply bind_stdout; [exact storage_fault_stdout|].
  intros _ w1. apply bind_stdout; [reflexivity|].
  intros w2 w3. destruct (sql_insert t (working (conn w2))); reflexivity.
Qed.

Lemma step_all_stdout data : forall w, stdout (snd (step_all data w)) = stdout w.
Proof.
  induction data as [|t data IH]; [reflexivity|].
  cbn [step_all]. apply bind_stdout; [exact (step_insert_stdout t)|].
  intros _. exact IH.
Qed.

Lemma batch_save_stdout es w : stdout (snd (batch_save es w)) = stdout w.
Proof.
  unfold batch_save, cursor_executemany_insert, prepare_insert.
  apply bind_stdout; [reflexivity|]. intros _.
  apply bind_stdout.
  - apply bind_stdout; [reflexivity|].
    intros w2 w3. destruct (employees (working (conn w2))); reflexivity.
  - intros _. apply bind_stdout; [reflexivity|]. intros _.
    apply step_all_stdout.
Qed.

Lemma conn_commit_stdout w : stdout (snd (conn_commit w)) = stdout w.
Proof.
  unfold conn_commit. apply bind_stdout; [reflexivity|].
  intros w2 w3. destruct (txn (conn w2)); [|reflexivity].
  apply bind_stdout; [exact storage_fault_stdout|]. reflexivity.
Qed.

Lemma insert_batch_stdout es w : stdout (snd (insert_batch es w)) = stdout w.
Proof.
  unfold insert_batch. apply bind_stdout; [exact (batch_save_stdout es)|].
  intros _. exact conn_commit_stdout.
Qed.

(** The first loop, whatever its outcome: the batches it committed are
    full ones, they are the rows the table gained, and when a flush fails
    the batch it was writing is the last one handed to [batch_save]. *)
Lemma random_loop_trace n : forall buf w r w',
  idle (conn w) -> List.length buf < 1000 ->
  random_loop n buf w = (r, w') ->
  stdout w' = stdout w
  /\ exists batches,
       Forall (fun b => List.length b = 1000) batches
       /\ contents (durable (conn w'))
          = contents (durable (conn w)) ++ map as_tuple (List.concat batches)
       /\ match r with
          | Ok buf' =>
              idle (conn w') /\ List.length buf' < 1000
              /\ log w' = log w ++ map BatchSave batches
              /\ List.length (List.concat batches) + List.length buf'
                 = List.length buf + n
          | Raise _ =>
              List.length (List.concat batches) <= List.length buf + n
              /\ exists failed,
                   log w' = log w ++ map BatchSave (batches ++ [failed])
          end.
Proof.
  induction n as [|n IH]; intros buf w r w' Hi Hb.
  - cbn [random_loop]. unfold ret. intros H. injection H as <- <-.
    split; [reflexivity|].
    exists []. cbn [List.concat map List.length]. rewrite !app_nil_r.
    split; [constructor|]. split; [reflexivity|].
    split; [exact Hi|]. split; [exact Hb|]. split; [reflexivity|]. lia.
  - cbn [random_loop].
    destruct (random_employee_run w) as (e & g & Er & Hv).
    rewrite (bind_ok _ _ _ _ _ Er).
    destruct (1000 <=? List.length (buf ++ [e])) eqn:Efull.
    + apply Nat.leb_le in Efull. rewrite length_app in Efull. cbn in Efull.
      rewrite flush_as_insert_batch. unfold bind at 1.
      pose proof (insert_batch_stdout (buf ++ [e]) (set_rng g w)) as Hs.
      destruct (insert_batch (buf ++ [e]) (set_rng g w)) as [[[]|x] w1] eqn:Eb;
        destruct (insert_batch_outcome _ (set_rng g w) _ _ Hi Eb) as (Hl & Hr & _);
        cbn [conn log set_rng snd stdout] in Hl, Hr, Hs.
      * destruct Hr as (Hi1 & Hc1 & He1). intros E2.
        destruct (IH [] w1 r w' Hi1 ltac:(cbn; lia) E2)
          as (Hs2 & bs & Hbs & Hc & Hr).
        split; [congruence|].
        exists ((buf ++ [e]) :: bs). cbn [List.concat].
        split; [constructor; [rewrite length_app; cbn; lia|exact Hbs]|].
        split; [rewrite Hc, Hc1, (map_app _ (buf ++ [e])), <- app_assoc; reflexivity|].
        destruct r as [buf'|x].
        -- destruct Hr as (Hi' & Hb' & Hl' & Hn').
           split; [exact Hi'|]. split; [exact Hb'|]. split.
           ++ rewrite Hl', Hl. cbn [map]. rewrite <- app_assoc. reflexivity.
           ++ rewrite !length_app in *. cbn in *. lia.
        -- destruct Hr as (Hn' & failed & Hl'). split.
           ++ rewrite !length_app in *. cbn in *. lia.
           ++ exists failed. rewrite Hl', Hl. cbn [map app].
              rewrite <- app_assoc. reflexivity.
      * intros H. injection H as <- <-. split; [exact Hs|].
        exists []. cbn [List.concat map List.length app].
        rewrite app_nil_r.
        split; [constructor|]. split; [rewrite Hr; reflexivity|].
        split; [lia|]. exists (buf ++ [e]). exact Hl.
    + apply Nat.leb_gt in Efull. intros E2.
      destruct (IH (buf ++ [e]) (set_rng g w) r w' Hi Efull E2)
        as (Hs2 & bs & Hbs & Hc & Hr).
      cbn [conn log set_rng stdout] in Hs2, Hc, Hr.
      split; [exact Hs2|].
      exists bs. split; [exact Hbs|]. split; [exact Hc|].
      destruct r as [buf'|x].
      * destruct Hr as (Hi' & Hb' & Hl' & Hn').
        split; [exact Hi'|]. split; [exact Hb'|]. split; [exact Hl'|].
        rewrite length_app in Hn'. cbn in Hn'. lia.
      * destruct Hr as (Hn' & Hf). split; [|exact Hf].
        rewrite length_app in Hn'. cbn in Hn'. lia.
Qed.

Lemma load_random_employees_trace n w r w' :
  idle (conn w) ->
  load_random_employees n w = (r, w') ->
  stdout w' = stdout w
  /\ exists batches,
       contents (durable (conn w'))
       = contents (durable (conn w)) ++ map as_tuple (List.concat batches)
       /\ match r with
          | Ok _ =>
              idle (conn w')
              /\ log w' = log w ++ map BatchSave batches
              /\ List.length (List.concat batches) = n
          | Raise _ =>
              Forall (fun b => List.length b = 1000) batches
              /\ List.length (List.concat batches) <= n
              /\ exists failed,
                   log w' = log w ++ map BatchSave (batches ++ [failed])
          end.
Proof.
  intros Hi. unfold load_random_employees, bind.
  destruct (random_loop n [] w) as [[buf|x] w1] eqn:E1;
    destruct (random_loop_trace n [] w _ _ Hi ltac:(cbn; lia) E1)
      as (Hs & bs & Hbs & Hc & Hr).
  - destruct Hr as (Hi1 & Hb1 & Hl1 & Hn1). cbn [List.length] in Hn1.
    destruct buf as [|e buf].
    + unfold ret. intros H. injection H as <- <-.
      split; [exact Hs|]. exists bs. split; [exact Hc|].
      split; [exact Hi1|]. split; [exact Hl1|]. cbn in Hn1. lia.
    + change (batch_save (e :: buf) ;; conn_commit) with (insert_batch (e :: buf)).
      intros E2.
      change (insert_batch (e :: buf) w1 = (r, w')) in E2.
      pose proof (insert_batch_stdout (e :: buf) w1) as Hs2.
      rewrite E2 in Hs2. cbn [snd] in Hs2.
      destruct (insert_batch_outcome _ _ _ _ Hi1 E2) as (Hl2 & Hr2 & _).
      split; [congruence|].
      destruct r as [[]|x].
      * destruct Hr2 as (Hi2 & Hc2 & _).
        exists (bs ++ [e :: buf]).
        rewrite concat_app. cbn [List.concat]. rewrite app_nil_r.
        split; [rewrite Hc2, Hc, <- app_assoc, <- map_app; reflexivity|].
        split; [exact Hi2|]. split.
        -- rewrite Hl2, Hl1, map_app, <- app_assoc. reflexivity.
        -- rewrite length_app. exact Hn1.
      * exists bs. split; [rewrite Hr2; exact Hc|].
        split; [exact Hbs|]. split; [lia|].
        exists (e :: buf). rewrite Hl2, Hl1, map_app, <- app_assoc. reflexivity.
  - intros H. injection H as <- <-. split; [exact Hs|].
    destruct Hr as (Hn & failed & Hl).
    exists bs. split; [exact Hc|]. split; [exact Hbs|].
    split; [cbn in Hn; exact Hn|]. exists failed. exact Hl.
Qed.

Lemma load_f_employees_stdout w : stdout (snd (load_f_employees w)) = stdout w.
Proof.
  unfold load_f_employees.
  destruct (f_loop_run 100 [] w) as (fs & g & El & _).
  rewrite (bind_ok _ _ _ _ _ El).
  change (batch_save ([] ++ fs) ;; conn_commit) with (insert_batch ([] ++ fs)).
  rewrite insert_batch_stdout. reflexivity.
Qed.

(** The whole load: the batches committed, the batch that failed, and the
    lines printed. *)
Lemma generate_random_employees_trace count w r w' :
  idle (conn w) ->
  generate_random_employees count w = (r, w') ->
  exists committed,
    contents (durable (conn w'))
    = contents (durable (conn w)) ++ map as_tuple (List.concat committed)
    /\ match r with
       | Ok v =>
           v = PyNone
           /\ log w' = log w ++ map BatchSave committed
           /\ List.length (List.concat committed) = count + 100
           /\ stdout w'
              = stdout w
                ++ [Generating count;
                    Text "[INFO] Generating 100 male employees with last names starting with 'F'...";
                    Text "[SUCCESS] Data generation completed successfully"]
       | Raise _ =>
           exists failed,
             log w' = log w ++ map BatchSave (committed ++ [failed])
             /\ ((Forall (fun b => List.length b = 1000) committed
                  /\ List.length (List.concat committed) <= count
                  /\ stdout w' = stdout w ++ [Generating count])
                 \/ (List.length (List.concat committed) = count
                     /\ List.length failed = 100
                     /\ stdout w'
                        = stdout w
                          ++ [Generating count;
                              Text "[INFO] Generating 100 male employees with last names starting with 'F'..."]))
       end.
Proof.
  intros Hi. unfold generate_random_employees.
  rewrite (bind_ok _ _ _ _ _ (print_run _ _)).
  set (w0 := set_stdout _ w). unfold bind at 1.
  destruct (load_random_employees count w0) as [[[]|x] w1] eqn:E1;
    destruct (load_random_employees_trace _ w0 _ _ Hi E1)
      as (Hs & bs & Hc & Hr);
    cbn [w0 conn log stdout set_stdout] in Hs, Hc, Hr.
  - destruct Hr as (Hi1 & Hl1 & Hn).
    rewrite (bind_ok _ _ _ _ _ (print_run _ _)).
    set (w2 := set_stdout _ w1). unfold bind at 1.
    pose proof (load_f_employees_stdout w2) as Hs2.
    destruct (load_f_employees w2) as [[[]|x] w3] eqn:E2;
      destruct (load_f_employees_outcome w2 _ _ Hi1 E2)
        as (fs & Hfn & _ & Hl2 & Hr2 & _);
      cbn [w2 conn log stdout set_stdout snd] in Hs2, Hl2, Hr2.
    + rewrite (bind_ok _ _ _ _ _ (print_run _ _)). unfold ret.
      intros H. injection H as <- <-. destruct Hr2 as [_ Hc2].
      exists (bs ++ [fs]). cbn [conn log stdout set_stdout].
      rewrite concat_app. cbn [List.concat]. rewrite app_nil_r.
      split; [rewrite Hc2, Hc, <- app_assoc, <- map_app; reflexivity|].
      split; [reflexivity|]. split.
      * rewrite Hl2, Hl1, map_app, <- app_assoc. reflexivity.
      * split; [rewrite length_app; lia|].
        rewrite Hs2, Hs, <- !app_assoc. reflexivity.
    + intros H. injection H as <- <-.
      exists bs. split; [rewrite Hr2; exact Hc|].
      exists fs. split.
      * rewrite Hl2, Hl1, map_app, <- app_assoc. reflexivity.
      * right. split; [exact Hn|]. split; [exact Hfn|].
        rewrite Hs2, Hs, <- app_assoc. reflexivity.
  - intros H. injection H as <- <-.
    destruct Hr as (Hbs & Hn & failed & Hl).
    exists bs. split; [exact Hc|].
    exists failed. split; [exact Hl|].
    left. split; [exact Hbs|]. split; [exact Hn|]. exact Hs.
Qed.

Lemma generate_random_employees_completes count w :
  idle (conn w) -> table_exists (durable (conn w)) -> no_faults w ->
  fst (generate_random_employees count w) = Ok PyNone.
Proof.
  intros Hi He Hn.
  destruct (generate_random_employees count w) as [r w'] eqn:E.
  exact (proj2 (generate_random_employees_outcome _ _ _ _ Hi E) He Hn).
Qed.

(** C2 (as the code has it): [generate_random_employees(count)] hands back
    [None], never a count.  When it completes, the committed table has
    gained exactly the [count + 100] records it handed to [batch_save].
    When a batch fails, in [batch_save] or in its commit, the exception
    propagates and the failing batch is the last one handed to
    [batch_save]; the committed table has gained exactly the batches handed
    over before it: full batches of 1000 random records, at most [count] of
    them, or all [count] random records when the targeted batch of 100 is
    the one that fails.  The load prints its progress lines and nothing
    else, and the handler of [main] adds the text of the exception: no
    number of committed rows is printed.  With the table present and no
    storage fault the load completes. *)
Theorem bulk_load_outcome (count : nat) (w : world) :
  idle (conn w) ->
  let (r, w') := generate_random_employees count w in
  (exists committed,
     contents (durable (conn w'))
     = contents (durable (conn w)) ++ map as_tuple (List.concat committed)
     /\ match r with
        | Ok v =>
            v = PyNone
            /\ log w' = log w ++ map BatchSave committed
            /\ List.length (List.concat committed) = count + 100
            /\ stdout w'
               = stdout w
                 ++ [Generating count;
                     Text "[INFO] Generating 100 male employees with last names starting with 'F'...";
                     Text "[SUCCESS] Data generation completed successfully"]
        | Raise _ =>
            exists failed,
              log w' = log w ++ map BatchSave (committed ++ [failed])
              /\ ((Forall (fun b => List.length b = 1000) committed
                   /\ List.length (List.concat committed) <= count
                   /\ stdout w' = stdout w ++ [Generating count])
                  \/ (List.length (List.concat committed) = count
                      /\ List.length failed = 100
                      /\ stdout w'
                         = stdout w
                           ++ [Generating count;
                               Text "[INFO] Generating 100 male employees with last names starting with 'F'..."]))
        end)
  /\ stdout (snd (try_except (generate_random_employees count ;; ret tt)
                             (fun e => print (ErrorLine e)) w))
     = stdout w' ++ match r with
                    | Ok _ => []
                    | Raise e => [ErrorLine e]
                    end
  /\ (table_exists (durable (conn w)) -> no_faults w -> r = Ok PyNone).
Proof.
  intros Hi.
  pose proof (generate_random_employees_completes count w Hi) as Hq.
  assert (Hh : stdout (snd (try_except (generate_random_employees count ;; ret tt)
                                       (fun e => print (ErrorLine e)) w))
               = stdout (snd (generate_random_employees count w))
                 ++ match fst (generate_random_employees count w) with
                    | Ok _ => []
                    | Raise e => [ErrorLine e]
                    end).
  { unfold try_except, bind, ret.
    destruct (generate_random_employees count w) as [[v|e] w1]; cbn.
    - now rewrite app_nil_r.
    - reflexivity. }
  destruct (generate_random_employees count w) as [r w'] eqn:E.
  cbn [fst snd] in Hq, Hh.
  split; [exact (generate_random_employees_trace _ _ _ _ Hi E)|].
  split; [exact Hh|exact Hq].
Qed.

(** An instance: 1500 records, with a storage fault at the first row of the
    second batch. *)
Lemma bulk_load_outcome_witness :
  idle (conn faulty_world)
  /\ let (r, w') := generate_random_employees 1500 faulty_world in
     (exists committed,
        contents (durable (conn w'))
        = contents (durable (conn faulty_world))
          ++ map as_tuple (List.concat committed)
        /\ match r with
           | Ok v =>
               v = PyNone
               /\ log w' = log faulty_world ++ map BatchSave committed
               /\ List.length (List.concat committed) = 1500 + 100
               /\ stdout w'
                  = stdout faulty_world
                    ++ [Generating 1500;
                        Text "[INFO] Generating 100 male employees with last names starting with 'F'...";
                        Text "[SUCCESS] Data generation completed successfully"]
           | Raise _ =>
               exists failed,
                 log w' = log faulty_world ++ map BatchSave (committed ++ [failed])
                 /\ ((Forall (fun b => List.length b = 1000) committed
                      /\ List.length (List.concat committed) <= 1500
                      /\ stdout w' = stdout faulty_world ++ [Generating 1500])
                     \/ (List.length (List.concat committed) = 1500
                         /\ List.length failed = 100
                         /\ stdout w'
                            = stdout faulty_world
                              ++ [Generating 1500;
                                  Text "[INFO] Generating 100 male employees with last names starting with 'F'..."]))
           end)
     /\ stdout (snd (try_except (generate_random_employees 1500 ;; ret tt)
                                (fun e => print (ErrorLine e)) faulty_world))
        = stdout w' ++ match r with
                       | Ok _ => []
                       | Raise e => [ErrorLine e]
                       end
     /\ (table_exists (durable (conn faulty_world)) -> no_faults faulty_world ->
         r = Ok PyNone).
Proof.
  split; [reflexivity|].
  apply (bulk_load_outcome 1500 faulty_world). reflexivity.
Defined.

(** C2 (as stated) fails: loading 3 records into an empty table completes
    and inserts 103 rows, but the value handed back is [None], not the
    number of rows inserted. *)
Lemma bulk_load_returns_no_count :
  ~ returns_inserted_count 3 (world0 fresh_db).
Proof.
  unfold returns_inserted_count.
  assert (E : fst (generate_random_employees 3 (world0 fresh_db)) = Ok PyNone)
    by (vm_compute; reflexivity).
  destruct (generate_random_employees 3 (world0 fresh_db)) as [r w'].
  cbn [fst] in E. subst r. discriminate.
Qed.

(** When the second batch fails, the first 1000 rows stay committed, the
    500 records of the second batch are the last handed to [batch_save],
    and the handler of [main] prints the text of the exception; no count
    appears. *)
Example bulk_load_fault_surfaces_no_count :
  let run := try_except (generate_random_employees 1500 ;; ret tt)
                        (fun e => print (ErrorLine e)) in
  row_count (snd (run faulty_world)) = 1000
  /\ map (@List.length _) (batches_of (log (snd (run faulty_world))))
     = [1000; 500]
  /\ stdout (snd (run faulty_world))
     = [Generating 1500; ErrorLine (OperationalError "disk I/O error")].
Proof. vm_compute. repeat split; reflexivity. Qed.



(** C6: for all [n], the second loop run [n] times (the source runs it 100
    times) produces exactly [n] records, every one with gender [Male] and
    a full name that begins with the letter F. *)
Theorem generate_targeted_male_f (n : nat) (w : world) :
  exists es w',
    f_loop n [] w = (Ok es, w')
    /\ List.length es = n
    /\ Forall (fun e => gender e = "Male"
                        /\ starts_with "F" (full_name e) = true) es.
Proof.
  destruct (f_loop_run n [] w) as (es & g & E & Hn & Hm & _).
  exists es, (set_rng g w). split; [exact E|]. split; [exact Hn|].
  eapply Forall_impl; [|exact Hm]. intros e H. unfold male_f in H.
  apply andb_prop in H. destruct H as [Hg Hf].
  apply String.eqb_eq in Hg. auto.
Qed.

(** C7: the first loop hands its records to [batch_save] in batches of
    exactly 1000, one call per batch, and what is left in the buffer (fewer
    than 1000 records) in a last call; the batches together are the [n]
    records generated and the rows added.  For [n = 1000] there is exactly
    one call, of 1000 records, and an empty table has 1000 rows after it. *)
Theorem loader_batches (n : nat) (w : world) :
  idle (conn w) -> table_exists (durable (conn w)) -> no_faults w ->
  exists batches w',
    load_random_employees n w = (Ok tt, w')
    /\ batches_of (log w') = batches_of (log w) ++ batches
    /\ Forall (fun b => List.length b = 1000) (removelast batches)
    /\ Forall (fun b => 1 <= List.length b <= 1000) batches
    /\ List.length (List.concat batches) = n
    /\ contents (durable (conn w'))
       = contents (durable (conn w)) ++ map as_tuple (List.concat batches)
    /\ row_count w' = row_count w + n
    /\ (n = 1000 ->
        (exists b, batches = [b] /\ List.length b = 1000)
        /\ (row_count w = 0 -> row_count w' = 1000)).
Proof.
  intros Hi He Hn.
  destruct (load_random_employees n w) as [r w'] eqn:E.
  destruct (load_random_employees_outcome _ _ _ _ Hi E)
    as (bs & Hc & _ & Hr & Hq).
  destruct (Hq He Hn) as [-> _].
  destruct Hr as (_ & [Hfull Hsome] & Hl & Hlen & _).
  assert (Hrows : row_count w' = row_count w + n)
    by (rewrite !row_count_contents, Hc, length_app, length_map; lia).
  exists bs, w'. split; [reflexivity|].
  split; [rewrite Hl; apply batches_of_app|].
  split; [exact Hfull|]. split; [exact Hsome|]. split; [exact Hlen|].
  split; [exact Hc|]. split; [exact Hrows|].
  intros ->. split; [|lia].
  destruct bs as [|b [|b' bs]].
  - discriminate Hlen.
  - exists b. split; [reflexivity|].
    cbn [List.concat] in Hlen. rewrite app_nil_r in Hlen. exact Hlen.
  - exfalso. cbn [removelast] in Hfull. inversion Hfull as [|? ? Hb _]; subst.
    inversion Hsome as [|? ? _ Hs]; subst. inversion Hs as [|? ? Hb' _]; subst.
    cbn [List.concat] in Hlen. rewrite !length_app in Hlen. lia.
Qed.

(** An instance: 1000 records into an empty table. *)
Lemma loader_batches_witness :
  idle (conn (world0 fresh_db))
  /\ table_exists (durable (conn (world0 fresh_db)))
  /\ no_faults (world0 fresh_db)
  /\ exists batches w',
       load_random_employees 1000 (world0 fresh_db) = (Ok tt, w')
       /\ batches_of (log w') = batches_of (log (world0 fresh_db)) ++ batches
       /\ Forall (fun b => List.length b = 1000) (removelast batches)
       /\ Forall (fun b => 1 <= List.length b <= 1000) batches
       /\ List.length (List.concat batches) = 1000
       /\ contents (durable (conn w'))
          = contents (durable (conn (world0 fresh_db)))
            ++ map as_tuple (List.concat batches)
       /\ row_count w' = row_count (world0 fresh_db) + 1000
       /\ (1000 = 1000 ->
           (exists b, batches = [b] /\ List.length b = 1000)
           /\ (row_count (world0 fresh_db) = 0 -> row_count w' = 1000)).
Proof.
  split; [reflexivity|]. split; [discriminate|]. split; [reflexivity|].
  apply (loader_batches 1000 (world0 fresh_db));
    [reflexivity|discriminate|reflexivity].
Defined.

(** The whole of [generate_random_employees(1000)] on an empty table: the
    loader makes its one call of 1000 records, then the targeted batch of
    100 follows in a call of its own. *)
Example generate_1000_calls :
  let w' := snd (generate_random_employees 1000 (world0 fresh_db)) in
  map (@List.length _) (batches_of (log w')) = [1000; 100]
  /\ row_count w' = 1100.
Proof. vm_compute. split; reflexivity. Qed.

(** ** GROUP BY, DISTINCT and ORDER BY *)

Lemma key_eqb_eq a b : key_eqb a b = true <-> a = b.
Proof.
  unfold key_eqb. destruct a as [a1 a2], b as [b1 b2]. cbn [fst snd].
  rewrite andb_true_iff, !String.eqb_eq. split.
  - intros [-> ->]. reflexivity.
  - intros H. injection H as -> ->. auto.
Qed.

Lemma key_eqb_refl a : key_eqb a a = true.
Proof. now apply key_eqb_eq. Qed.

Lemma add_to_groups_homogeneous r gs :
  Forall homogeneous gs -> Forall homogeneous (add_to_groups r gs).
Proof.
  induction 1 as [|g gs Hg Hgs IH]; cbn [add_to_groups].
  - constructor; [|constructor]. split; [discriminate|].
    constructor; [reflexivity|constructor].
  - destruct g as [|r0 g]; [exact IH|].
    destruct (key_eqb _ _) eqn:Ek.
    + constructor; [|exact Hgs]. destruct Hg as [_ Hg]. split.
      * discriminate.
      * apply key_eqb_eq in Ek. apply Forall_app. split; [exact Hg|].
        constructor; [|constructor]. symmetry. exact Ek.
    + constructor; assumption.
Qed.

Lemma add_to_groups_keys r gs :
  Forall homogeneous gs ->
  (map group_key (add_to_groups r gs) = map group_key gs
   /\ In (key_of (cols r)) (map group_key gs))
  \/ (map group_key (add_to_groups r gs) = map group_key gs ++ [key_of (cols r)]
      /\ ~ In (key_of (cols r)) (map group_key gs)).
Proof.
  induction 1 as [|g gs Hg Hgs IH]; cbn [add_to_groups].
  - right. split; [reflexivity|]. intros [].
  - destruct g as [|r0 g]; [destruct Hg as [Hg _]; congruence|].
    destruct (key_eqb _ _) eqn:Ek.
    + left. apply key_eqb_eq in Ek. cbn [map]. split; [reflexivity|].
      left. exact Ek.
    + cbn [map]. destruct IH as [[IH1 IH2]|[IH1 IH2]].
      * left. rewrite IH1. split; [reflexivity|]. right. exact IH2.
      * right. rewrite IH1. split; [reflexivity|].
        intros [Hk|Hk]; [|contradiction].
        change (group_key (r0 :: g)) with (key_of (cols r0)) in Hk.
        rewrite Hk, key_eqb_refl in Ek. discriminate.
Qed.

Lemma add_to_groups_members r gs x :
  Forall homogeneous gs ->
  In x (List.concat (add_to_groups r gs)) <-> In x (List.concat gs) \/ x = r.
Proof.
  induction 1 as [|g gs Hg Hgs IH]; cbn [add_to_groups].
  - cbn. intuition.
  - destruct g as [|r0 g]; [destruct Hg as [Hg _]; congruence|].
    destruct (key_eqb _ _); cbn [List.concat]; rewrite !in_app_iff.
    + cbn [In]. intuition.
    + rewrite IH. intuition.
Qed.

Lemma group_by_spec rs :
  let gs := group_by rs in
  Forall homogeneous gs
  /\ NoDup (map group_key gs)
  /\ forall x, In x (List.concat gs) <-> In x rs.
Proof.
  unfold group_by.
  assert (H : forall rs0 gs,
             Forall homogeneous gs -> NoDup (map group_key gs) ->
             (forall x, In x (List.concat gs) <-> In x rs0) ->
             let gs' := fold_left (fun gs r => add_to_groups r gs) rs gs in
             Forall homogeneous gs' /\ NoDup (map group_key gs')
             /\ forall x, In x (List.concat gs') <-> In x (rs0 ++ rs)).
  { induction rs as [|r rs IH]; intros rs0 gs Hh Hk Hm; cbn [fold_left].
    - rewrite app_nil_r. auto.
    - replace (rs0 ++ r :: rs) with ((rs0 ++ [r]) ++ rs)
        by (rewrite <- app_assoc; reflexivity).
      apply IH.
      + now apply add_to_groups_homogeneous.
      + destruct (add_to_groups_keys r gs Hh) as [[-> _]|[-> Hn]]; [exact Hk|].
        apply NoDup_app; [exact Hk|repeat constructor; intros []|].
        intros k Hin [<-|[]]. contradiction.
      + intros x. rewrite add_to_groups_members by exact Hh.
        rewrite in_app_iff, Hm. cbn [In]. intuition. }
  apply (H [] []); [constructor|constructor|]. cbn. reflexivity.
Qed.

Lemma bare_row_in choice g :
  homogeneous g ->
  exists r, In r g /\ bare_row choice g = cols r
            /\ key_of (bare_row choice g) = group_key g.
Proof.
  intros [Hne Hk]. unfold bare_row.
  set (i := choice g mod List.length g).
  assert (Hi : i < List.length g).
  { apply Nat.mod_upper_bound. destruct g; [congruence|discriminate]. }
  exists (nth i g null_row).
  pose proof (nth_In g null_row Hi) as Hin.
  split; [exact Hin|]. split; [reflexivity|].
  rewrite Forall_forall in Hk. now apply Hk.
Qed.

Lemma bare_rows_keys choice gs :
  Forall homogeneous gs ->
  map key_of (map (bare_row choice) gs) = map group_key gs.
Proof.
  induction 1 as [|g gs Hg Hgs IH]; [reflexivity|].
  cbn [map]. rewrite IH.
  destruct (bare_row_in choice g Hg) as (_ & _ & _ & ->). reflexivity.
Qed.

Lemma filter_all {A} (f : A -> bool) l :
  (forall x, In x l -> f x = true) -> filter f l = l.
Proof.
  induction l as [|x l IH]; intros H; [reflexivity|].
  cbn [filter]. rewrite (H x (or_introl eq_refl)), IH; [reflexivity|].
  intros y Hy. apply H. now right.
Qed.

(** After GROUP BY, DISTINCT has nothing left to remove. *)
Lemma distinct_nodup_keys ts :
  NoDup (map key_of ts) -> distinct ts = ts.
Proof.
  induction ts as [|t ts IH]; intros H; [reflexivity|].
  cbn [map] in H. inversion H as [|? ? Hn Hd]; subst.
  cbn [distinct]. rewrite (IH Hd). f_equal. apply filter_all.
  intros u Hu. unfold tuple_eqb.
  destruct (key_eqb (key_of t) (key_of u)) eqn:Ek; [|reflexivity].
  apply key_eqb_eq in Ek. exfalso. apply Hn. rewrite Ek. now apply in_map.
Qed.

Lemma order_insert_perm t ts : Permutation (order_insert t ts) (t :: ts).
Proof.
  induction ts as [|u ts IH]; cbn [order_insert]; [reflexivity|].
  destruct (String.leb _ _); [reflexivity|].
  rewrite IH. apply perm_swap.
Qed.

Lemma order_by_full_name_perm ts : Permutation (order_by_full_name ts) ts.
Proof.
  induction ts as [|t ts IH]; [reflexivity|].
  cbn [order_by_full_name fold_right].
  fold (order_by_full_name ts). rewrite order_insert_perm. now constructor.
Qed.

Lemma ascii_compare_refl c : Ascii.compare c c = Eq.
Proof. unfold Ascii.compare. apply N.compare_refl. Qed.

Lemma string_compare_lt_trans a : forall b c,
  String.compare a b = Lt -> String.compare b c = Lt -> String.compare a c = Lt.
Proof.
  induction a as [|x a IH]; intros [|y b] [|z c]; cbn [String.compare];
    try discriminate; try reflexivity.
  destruct (Ascii.compare x y) eqn:Hxy; destruct (Ascii.compare y z) eqn:Hyz;
    try discriminate; intros H1 H2.
  - apply Ascii.compare_eq_iff in Hxy, Hyz. subst.
    rewrite ascii_compare_refl. eauto.
  - apply Ascii.compare_eq_iff in Hxy. subst. rewrite Hyz. reflexivity.
  - apply Ascii.compare_eq_iff in Hyz. subst. rewrite Hxy. reflexivity.
  - unfold Ascii.compare in *. rewrite N.compare_lt_iff in *.
    rewrite (proj2 (N.compare_lt_iff _ _)); [reflexivity|].
    eapply N.lt_trans; eassumption.
Qed.

Lemma string_leb_trans a b c :
  String.leb a b = true -> String.leb b c = true -> String.leb a c = true.
Proof.
  unfold String.leb.
  destruct (String.compare a b) eqn:Hab; try discriminate;
    destruct (String.compare b c) eqn:Hbc; try discriminate; intros _ _.
  - apply String.compare_eq_iff in Hab. subst. now rewrite Hbc.
  - apply String.compare_eq_iff in Hab. subst. now rewrite Hbc.
  - apply String.compare_eq_iff in Hbc. subst. now rewrite Hab.
  - now rewrite (string_compare_lt_trans _ _ _ Hab Hbc).
Qed.

Lemma order_insert_sorted t ts :
  StronglySorted name_le ts -> StronglySorted name_le (order_insert t ts).
Proof.
  induction 1 as [|u ts Hs IH Hu]; cbn [order_insert].
  - repeat constructor.
  - destruct (String.leb (t_full_name t) (t_full_name u)) eqn:El.
    + constructor; [constructor; assumption|].
      constructor; [exact El|].
      eapply Forall_impl; [|exact Hu]. intros v Hv.
      unfold name_le in *. eapply string_leb_trans; eassumption.
    + constructor; [exact IH|].
      apply (Permutation_Forall (Permutation_sym (order_insert_perm t ts))).
      constructor; [|exact Hu].
      unfold name_le. destruct (String.leb_total (t_full_name t) (t_full_name u));
        congruence.
Qed.

Lemma order_by_full_name_sorted ts :
  StronglySorted name_le (order_by_full_name ts).
Proof.
  induction ts as [|t ts IH]; [constructor|].
  cbn [order_by_full_name fold_right]. now apply order_insert_sorted.
Qed.

Lemma select_distinct_spec choice d ts :
  sql_select_distinct choice d = Some ts ->
  NoDup (map key_of ts)
  /\ StronglySorted name_le ts
  /\ (forall t, In t ts -> In t (contents d))
  /\ (forall t, In t (contents d) -> In (key_of t) (map key_of ts)).
Proof.
  unfold sql_select_distinct, contents, rows.
  destruct (employees d) as [rs|]; [|discriminate].
  intros H. injection H as <-.
  destruct (group_by_spec rs) as (Hh & Hk & Hm).
  set (gs := group_by rs) in *.
  assert (Hkeys : map key_of (map (bare_row choice) gs) = map group_key gs)
    by now apply bare_rows_keys.
  rewrite distinct_nodup_keys by (rewrite Hkeys; exact Hk).
  pose proof (order_by_full_name_perm (map (bare_row choice) gs)) as Hp.
  split; [|split; [apply order_by_full_name_sorted|split]].
  - apply (Permutation_NoDup (Permutation_sym (Permutation_map key_of Hp))).
    rewrite Hkeys. exact Hk.
  - intros t Ht. apply (Permutation_in _ Hp) in Ht.
    apply in_map_iff in Ht. destruct Ht as (g & <- & Hg).
    rewrite Forall_forall in Hh.
    destruct (bare_row_in choice g (Hh g Hg)) as (r & Hr & -> & _).
    apply in_map. apply Hm. apply in_concat. eauto.
  - intros t Ht. apply in_map_iff in Ht. destruct Ht as (r & <- & Hr).
    apply Hm, in_concat in Hr. destruct Hr as (g & Hg & Hr).
    apply (Permutation_in _ (Permutation_sym (Permutation_map key_of Hp))).
    rewrite Hkeys. rewrite Forall_forall in Hh.
    destruct (Hh g Hg) as [_ Hgk]. rewrite Forall_forall in Hgk.
    rewrite (Hgk r Hr). now apply in_map.
Qed.

Lemma unique_key ts k :
  NoDup (map key_of ts) -> In k (map key_of ts) ->
  exists t, filter (fun u => key_eqb (key_of u) k) ts = [t]
            /\ In t ts /\ key_of t = k.
Proof.
  induction ts as [|u ts IH]; intros Hn Hk; [destruct Hk|].
  cbn [map] in Hn, Hk. inversion Hn as [|? ? Hu Hn']; subst. cbn [filter].
  destruct (key_eqb (key_of u) k) eqn:Ek.
  - apply key_eqb_eq in Ek. subst k. exists u.
    split; [|split; [now left|reflexivity]].
    f_equal. transitivity (filter (fun _ : tuple => false) ts).
    + apply filter_ext_in. intros v Hv.
      destruct (key_eqb (key_of v) (key_of u)) eqn:Ev; [|reflexivity].
      apply key_eqb_eq in Ev. exfalso. apply Hu. rewrite <- Ev. now apply in_map.
    + clear. induction ts; [reflexivity|assumption].
  - destruct Hk as [Hk|Hk]; [rewrite Hk, key_eqb_refl in Ek; discriminate|].
    destruct (IH Hn' Hk) as (t & Hf & Ht & Hkt).
    exists t. split; [exact Hf|]. split; [now right|exact Hkt].
Qed.

(** ** Listing *)

Lemma print_employee_frame t w :
  conn (snd (print_employee t w)) = conn w
  /\ log (snd (print_employee t w)) = log w.
Proof.
  unfold print_employee, calculate_age, bind, date_today, raise, ret.
  cbn [birth_date].
  destruct (strptime (t_birth_date t)) as [[[y m] d]|]; [|split; reflexivity].
  destruct (today w) as [[ty tm] td].
  destruct (_ || _); split; reflexivity.
Qed.

Lemma for_each_print_frame ts : forall w,
  conn (snd (for_each ts print_employee w)) = conn w
  /\ log (snd (for_each ts print_employee w)) = log w.
Proof.
  induction ts as [|t ts IH]; intros w; [split; reflexivity|].
  cbn [for_each]. unfold bind.
  destruct (print_employee_frame t w) as [Hc Hl].
  destruct (print_employee t w) as [[[]|x] w1]; cbn [snd] in *.
  - destruct (IH w1) as [Hc1 Hl1]. split; congruence.
  - auto.
Qed.

Lemma cursor_fetch_run query w ts :
  query (working (conn w)) = Some ts ->
  cursor_fetch query w = (Ok ts, set_log (log w ++ [Fetchall ts]) w).
Proof.
  intros H. unfold cursor_fetch, bind, get. rewrite H. reflexivity.
Qed.

Lemma cursor_fetch_none query w :
  query (working (conn w)) = None ->
  cursor_fetch query w = (Raise no_such_table, w).
Proof.
  intros H. unfold cursor_fetch, bind, get. rewrite H. reflexivity.
Qed.

Lemma get_run w : get w = (Ok w, w).
Proof. reflexivity. Qed.

Lemma display_all_employees_frame w ts :
  sql_select_distinct (bare_choice w) (working (conn w)) = Some ts ->
  conn (snd (display_all_employees w)) = conn w
  /\ log (snd (display_all_employees w)) = log w ++ [Fetchall ts].
Proof.
  intros Hs. destruct (display_all_employees w) as [r w'] eqn:E. cbn [snd].
  unfold display_all_employees in E.
  rewrite (bind_ok _ _ _ _ _ (get_run w)) in E.
  rewrite (bind_ok _ _ _ _ _ (cursor_fetch_run _ _ _ Hs)) in E.
  rewrite !(bind_ok _ _ _ _ _ (print_run _ _)) in E.
  unfold bind in E.
  match type of E with
  | context [for_each ts print_employee ?w1] =>
      destruct (for_each_print_frame ts w1) as [Hc Hl];
      change (conn w1) with (conn w) in Hc;
      change (log w1) with (log w ++ [Fetchall ts]) in Hl;
      destruct (for_each ts print_employee w1) as [[[]|x] w2]
  end; cbn [snd] in Hc, Hl; injection E as <- <-; split; assumption.
Qed.

Lemma select_distinct_some choice d :
  table_exists d -> exists ts, sql_select_distinct choice d = Some ts.
Proof.
  unfold table_exists, sql_select_distinct.
  destruct (employees d); [eauto|congruence].
Qed.

(** C8: the listing fetches tuples (full_name, birth_date, gender) in which
    no pair (full_name, birth_date) occurs twice, ordered by full_name
    ascending; every listed tuple is a row of the table and every pair of
    the table is listed; the table itself, duplicates included, is left as
    it was. *)
Theorem list_distinct_dedup_ordered (w : world) :
  table_exists (working (conn w)) ->
  exists ts,
    log (snd (display_all_employees w)) = log w ++ [Fetchall ts]
    /\ conn (snd (display_all_employees w)) = conn w
    /\ NoDup (map key_of ts)
    /\ StronglySorted name_le ts
    /\ (forall t, In t ts -> In t (contents (working (conn w))))
    /\ (forall t, In t (contents (working (conn w))) ->
                  In (key_of t) (map key_of ts)).
Proof.
  intros He.
  destruct (select_distinct_some (bare_choice w) _ He) as [ts Hs].
  destruct (display_all_employees_frame w ts Hs) as [Hc Hl].
  destruct (select_distinct_spec _ _ _ Hs) as (H1 & H2 & H3 & H4).
  exists ts. auto 10.
Qed.

(** An instance: the table with the same person stored twice. *)
Lemma list_distinct_dedup_ordered_witness :
  table_exists (working (conn (world0 twice_db)))
  /\ exists ts,
       log (snd (display_all_employees (world0 twice_db)))
       = log (world0 twice_db) ++ [Fetchall ts]
       /\ conn (snd (display_all_employees (world0 twice_db)))
          = conn (world0 twice_db)
       /\ NoDup (map key_of ts)
       /\ StronglySorted name_le ts
       /\ (forall t, In t ts -> In t (contents (working (conn (world0 twice_db)))))
       /\ (forall t, In t (contents (working (conn (world0 twice_db)))) ->
                     In (key_of t) (map key_of ts)).
Proof.
  split; [discriminate|].
  apply (list_distinct_dedup_ordered (world0 twice_db)). discriminate.
Defined.

(** Four rows in the table, two listed, four rows still there. *)
Example listing_twice_db :
  let w' := snd (display_all_employees (world0 twice_db)) in
  fetches_of (log w')
  = [[("Ivanov Ivan Ivanovich", "1980-01-02", "Male");
      ("Popov Ivan Petrovich", "1990-05-15", "Male")]]
  /\ row_count w' = 4.
Proof. split; reflexivity. Qed.

(** C10: when two rows of the table agree on (full_name, birth_date) and
    differ in gender, the listing has exactly one tuple for that pair; it is
    the tuple of one row of the table with that pair, so it carries that
    row's gender, and the two rows are not both listed. *)
Theorem list_distinct_one_row_per_pair (w : world) (rs : list row) (r1 r2 : row) :
  employees (working (conn w)) = Some rs ->
  In r1 rs -> In r2 rs ->
  key_of (cols r1) = key_of (cols r2) ->
  t_gender (cols r1) <> t_gender (cols r2) ->
  exists ts t,
    log (snd (display_all_employees w)) = log w ++ [Fetchall ts]
    /\ filter (fun u => key_eqb (key_of u) (key_of (cols r1))) ts = [t]
    /\ (exists r, In r rs /\ key_of (cols r) = key_of (cols r1) /\ cols r = t)
    /\ ~ (In (cols r1) ts /\ In (cols r2) ts).
Proof.
  intros Hrs H1 H2 Hk Hg.
  assert (He : table_exists (working (conn w)))
    by (unfold table_exists; congruence).
  destruct (select_distinct_some (bare_choice w) _ He) as [ts Hs].
  destruct (display_all_employees_frame w ts Hs) as [_ Hl].
  destruct (select_distinct_spec _ _ _ Hs) as (Hn & _ & Hin & Hall).
  assert (Hc : contents (working (conn w)) = map cols rs)
    by (unfold contents, rows; rewrite Hrs; reflexivity).
  rewrite Hc in Hin, Hall.
  destruct (unique_key ts (key_of (cols r1)) Hn (Hall _ (in_map cols _ _ H1)))
    as (t & Hf & Ht & Hkt).
  exists ts, t. split; [exact Hl|]. split; [exact Hf|]. split.
  - apply Hin, in_map_iff in Ht. destruct Ht as (r & Hr & Hrin).
    exists r. subst t. auto.
  - intros [Hi1 Hi2].
    assert (F1 : In (cols r1) (filter (fun u => key_eqb (key_of u) (key_of (cols r1))) ts))
      by (apply filter_In; split; [exact Hi1|apply key_eqb_refl]).
    assert (F2 : In (cols r2) (filter (fun u => key_eqb (key_of u) (key_of (cols r1))) ts))
      by (apply filter_In; split; [exact Hi2|rewrite Hk; apply key_eqb_refl]).
    rewrite Hf in F1, F2. destruct F1 as [F1|[]]. destruct F2 as [F2|[]].
    apply Hg. congruence.
Qed.

(** An instance: rows 1 and 3 of that table. *)
Lemma list_distinct_one_row_per_pair_witness :
  let w := world0 twice_db in
  let rs := rows twice_db in
  let r1 := mkRow 1 ("Popov Ivan Petrovich", "1990-05-15", "Male") in
  let r2 := mkRow 3 ("Popov Ivan Petrovich", "1990-05-15", "Female") in
  employees (working (conn w)) = Some rs
  /\ In r1 rs /\ In r2 rs
  /\ key_of (cols r1) = key_of (cols r2)
  /\ t_gender (cols r1) <> t_gender (cols r2)
  /\ exists ts t,
       log (snd (display_all_employees w)) = log w ++ [Fetchall ts]
       /\ filter (fun u => key_eqb (key_of u) (key_of (cols r1))) ts = [t]
       /\ (exists r, In r rs /\ key_of (cols r) = key_of (cols r1) /\ cols r = t)
       /\ ~ (In (cols r1) ts /\ In (cols r2) ts).
Proof.
  cbv zeta.
  assert (H1 : In (mkRow 1 ("Popov Ivan Petrovich", "1990-05-15", "Male"))
                  (rows twice_db)) by (cbn; auto).
  assert (H2 : In (mkRow 3 ("Popov Ivan Petrovich", "1990-05-15", "Female"))
                  (rows twice_db)) by (cbn; auto).
  assert (Hg : t_gender (cols (mkRow 1 ("Popov Ivan Petrovich", "1990-05-15", "Male")))
               <> t_gender (cols (mkRow 3 ("Popov Ivan Petrovich", "1990-05-15", "Female"))))
    by discriminate.
  split; [reflexivity|]. split; [exact H1|]. split; [exact H2|].
  split; [reflexivity|]. split; [exact Hg|].
  exact (list_distinct_one_row_per_pair (world0 twice_db) (rows twice_db)
           _ _ eq_refl H1 H2 eq_refl Hg).
Defined.

(** ** The index *)

Lemma index_insert_perm e ix : Permutation (index_insert e ix) (e :: ix).
Proof.
  induction ix as [|x ix IH]; cbn [index_insert]; [reflexivity|].
  destruct (entry_leb e x); [reflexivity|].
  rewrite IH. apply perm_swap.
Qed.

Lemma index_build_perm rs : Permutation (index_build rs) (map entry_of rs).
Proof.
  unfold index_build. induction (map entry_of rs) as [|e es IH]; [reflexivity|].
  cbn [fold_right]. rewrite index_insert_perm. now constructor.
Qed.

Lemma fetch_row_in rs r :
  NoDup (map rowid rs) -> In r rs -> fetch_row (rowid r) rs = Some r.
Proof.
  unfold fetch_row. induction rs as [|x rs IH]; intros Hn Hin; [destruct Hin|].
  cbn [map] in Hn. inversion Hn as [|? ? Hx Hn']; subst. cbn [find].
  destruct Hin as [->|Hin].
  - now rewrite Z.eqb_refl.
  - destruct (Z.eqb_spec (rowid x) (rowid r)) as [E|E]; [|auto].
    exfalso. apply Hx. rewrite E. now apply in_map.
Qed.

Lemma search_entries_scan rs rs0 :
  NoDup (map rowid rs) -> incl rs0 rs ->
  search_male_f (map entry_of rs0) rs = scan_male_f rs0.
Proof.
  intros Hn. unfold search_male_f, scan_male_f.
  induction rs0 as [|r rs0 IH]; intros Hi; [reflexivity|].
  cbn [map flat_map filter]. rewrite IH by (intros x Hx; apply Hi; now right).
  unfold entry_of at 1. cbn beta iota.
  rewrite (fetch_row_in rs r Hn (Hi r (or_introl eq_refl))).
  destruct (where_male_f _ _); reflexivity.
Qed.

Lemma search_scan ix rs :
  NoDup (map rowid rs) -> Permutation ix (map entry_of rs) ->
  Permutation (search_male_f ix rs) (scan_male_f rs).
Proof.
  intros Hn Hp. rewrite <- (search_entries_scan rs rs Hn (incl_refl rs)).
  unfold search_male_f. now apply Permutation_flat_map.
Qed.

(** The filter query gives the same rows on a database and on the database
    with the index created. *)
Lemma create_index_same_rows d d' ts :
  well_formed d ->
  sql_create_index d = Some d' ->
  sql_select_male_f d = Some ts ->
  exists ts', sql_select_male_f d' = Some ts' /\ Permutation ts ts'.
Proof.
  intros (Hn & _ & Hix). unfold sql_create_index, sql_select_male_f, rows in *.
  destruct (employees d) as [rs|] eqn:Ee; [|discriminate].
  destruct (idx_gender_name d) as [ix|] eqn:Ei.
  - intros H. injection H as <-. rewrite Ee, Ei. intros H. injection H as <-.
    eauto.
  - intros H. injection H as <-. cbn [employees idx_gender_name].
    intros H. injection H as <-.
    eexists. split; [reflexivity|]. symmetry.
    apply search_scan; [exact Hn|apply index_build_perm].
Qed.

(** Every statement of the program keeps the database well formed, so the
    databases it can build from an empty file all are. *)
Lemma well_formed_empty : well_formed empty_db.
Proof. repeat split; constructor. Qed.

Lemma well_formed_create_table d :
  well_formed d -> well_formed (sql_create_table d).
Proof.
  unfold sql_create_table. destruct (employees d) eqn:Ee; [auto|].
  intros _. repeat split; constructor.
Qed.

Lemma well_formed_drop_table d : well_formed (sql_drop_table d).
Proof. repeat split; constructor. Qed.

Lemma well_formed_insert t d d' :
  well_formed d -> sql_insert t d = Some d' -> well_formed d'.
Proof.
  intros (Hn & Hs & Hix). unfold sql_insert, rows in *.
  destruct (employees d) as [rs|]; [|discriminate].
  intros H. injection H as <-.
  unfold well_formed, rows. cbn [employees sqlite_sequence idx_gender_name rowid].
  split; [|split].
  - rewrite map_app. cbn [map rowid]. apply NoDup_app; [exact Hn|repeat constructor; intros []|].
    intros i Hi [<-|[]]. apply in_map_iff in Hi. destruct Hi as (r & Hr & Hin).
    rewrite Forall_forall in Hs. specialize (Hs r Hin). lia.
  - apply Forall_app. split.
    + eapply Forall_impl; [|exact Hs]. cbn. intros r Hr. lia.
    + repeat constructor. cbn [rowid]. lia.
  - destruct (idx_gender_name d) as [ix|]; cbn [option_map]; [|exact I].
    rewrite index_insert_perm, map_app. cbn [map].
    rewrite Hix. apply Permutation_cons_append.
Qed.

Lemma well_formed_create_index d d' :
  well_formed d -> sql_create_index d = Some d' -> well_formed d'.
Proof.
  intros (Hn & Hs & Hix). unfold sql_create_index, rows in *.
  destruct (employees d) as [rs|] eqn:Ee; [|discriminate].
  destruct (idx_gender_name d) as [ix|] eqn:Ei; intros H; injection H as <-.
  - unfold well_formed, rows. rewrite Ee, Ei. auto.
  - unfold well_formed, rows. cbn [employees sqlite_sequence idx_gender_name].
    split; [exact Hn|]. split; [exact Hs|]. apply index_build_perm.
Qed.

(** ** The benchmark *)

Lemma time_time_run w :
  time_time w = (Ok (wall (sample 0 w)), set_clock (tl (clock w)) w).
Proof. reflexivity. Qed.

Lemma print_employee_env t w :
  clock (snd (print_employee t w)) = clock w.
Proof.
  unfold print_employee, calculate_age, bind, date_today, raise, ret.
  cbn [birth_date].
  destruct (strptime (t_birth_date t)) as [[[y m] d]|]; [|reflexivity].
  destruct (today w) as [[ty tm] td].
  destruct (_ || _); reflexivity.
Qed.

Lemma for_each_print_env ts : forall w,
  clock (snd (for_each ts print_employee w)) = clock w.
Proof.
  induction ts as [|t ts IH]; intros w; [reflexivity|].
  cbn [for_each]. unfold bind.
  pose proof (print_employee_env t w) as Hc.
  destruct (print_employee t w) as [[[]|x] w1]; cbn [snd] in *.
  - rewrite IH. exact Hc.
  - exact Hc.
Qed.

Lemma query_male_f_surnames_outcome w r w' :
  query_male_f_surnames w = (r, w') ->
  conn w' = conn w
  /\ match sql_select_male_f (working (conn w)) with
     | None => r = Raise no_such_table /\ log w' = log w
     | Some ts =>
         log w' = log w ++ [Fetchall ts]
         /\ clock w' = tl (tl (clock w))
         /\ forall t, r = Ok t -> t = (wall (sample 1 w) - wall (sample 0 w))%Q
     end.
Proof.
  unfold query_male_f_surnames.
  rewrite (bind_ok _ _ _ _ _ (time_time_run w)).
  set (w1 := set_clock _ w).
  change (working (conn w)) with (working (conn w1)).
  destruct (sql_select_male_f (working (conn w1))) as [ts|] eqn:Es.
  - rewrite (bind_ok _ _ _ _ _ (cursor_fetch_run _ _ _ Es)).
    set (w2 := set_log _ w1).
    rewrite (bind_ok _ _ _ _ _ (time_time_run w2)).
    rewrite !(bind_ok _ _ _ _ _ (print_run _ _)).
    unfold bind at 1.
    match goal with
    | |- context [for_each _ print_employee ?w3] =>
        pose proof (for_each_print_frame (firstn 10 ts) w3) as [Hc Hl];
        pose proof (for_each_print_env (firstn 10 ts) w3) as Hk;
        change (conn w3) with (conn w) in Hc;
        change (log w3) with (log w ++ [Fetchall ts]) in Hl;
        change (clock w3) with (tl (tl (clock w))) in Hk;
        destruct (for_each (firstn 10 ts) print_employee w3) as [[[]|x] w4]
    end; cbn [snd] in Hc, Hl, Hk.
    + unfold bind at 1.
      destruct (10 <? List.length ts);
        [rewrite print_run|unfold ret at 1];
        rewrite !(bind_ok _ _ _ _ _ (print_run _ _)); unfold ret;
        intros H; injection H as <- <-;
        cbn [conn log clock set_stdout];
        (split; [exact Hc|]); (split; [exact Hl|]); (split; [exact Hk|]);
        intros t Ht; injection Ht as <-; reflexivity.
    + intros H. injection H as <- <-.
      split; [exact Hc|]. split; [exact Hl|]. split; [exact Hk|].
      intros t Ht. discriminate.
  - rewrite (bind_raise _ _ _ _ _ (cursor_fetch_none _ _ Es)).
    intros H. injection H as <- <-. auto.
Qed.

Lemma optimize_database_outcome w w' :
  optimize_database w = (Ok tt, w') ->
  log w' = log w /\ clock w' = clock w
  /\ exists d', sql_create_index (working (conn w)) = Some d'
                /\ working (conn w') = d'.
Proof.
  unfold optimize_database.
  rewrite (bind_ok _ _ _ _ _ (print_run _ _)).
  set (w1 := set_stdout _ w).
  unfold cursor_execute_ddl.
  rewrite bind_assoc. rewrite (bind_ok _ _ _ _ _ (get_run w1)).
  change (working (conn w1)) with (working (conn w)).
  destruct (sql_create_index (working (conn w))) as [d'|];
    [|unfold bind, raise; discriminate].
  unfold bind at 1 2.
  destruct (storage_fault w1) as [[[]|x] w2] eqn:Ef; [|discriminate].
  apply storage_fault_outcome in Ef. destruct Ef as [-> _].
  unfold modify at 1. unfold conn_commit, bind, get, modify, storage_fault.
  subst w1. cbn [conn set_faults set_conn txn faults set_stdout].
  destruct (txn (conn w)) eqn:Et; cbn [txn conn set_conn].
  - cbn [conn set_faults set_conn txn faults set_stdout].
    destruct (hd false (tl (faults w))); [discriminate|].
    cbn [print modify]. intros H. injection H as <-.
    cbn [log clock conn set_stdout set_conn set_faults].
    split; [reflexivity|]. split; [reflexivity|]. exists d'. auto.
  - cbn [ret print modify]. intros H. injection H as <-.
    cbn [log clock conn set_stdout set_conn set_faults].
    split; [reflexivity|]. split; [reflexivity|]. exists d'. auto.
Qed.

Lemma run_before_after_outcome w tb ta w' :
  well_formed (working (conn w)) ->
  run_before_after w = (Ok (tb, ta), w') ->
  (exists ts1 ts2, log w' = log w ++ [Fetchall ts1; Fetchall ts2]
                   /\ Permutation ts1 ts2)
  /\ tb = (wall (sample 1 w) - wall (sample 0 w))%Q
  /\ ta = (wall (sample 3 w) - wall (sample 2 w))%Q.
Proof.
  intros Hwf. unfold run_before_after.
  rewrite (bind_ok _ _ _ _ _ (print_run _ _)).
  set (w0 := set_stdout _ w). unfold bind at 1.
  destruct (query_male_f_surnames w0) as [[tb'|x] w1] eqn:E1; [|discriminate].
  destruct (query_male_f_surnames_outcome _ _ _ E1) as [Hc1 H1].
  change (working (conn w0)) with (working (conn w)) in H1.
  destruct (sql_select_male_f (working (conn w))) as [ts1|] eqn:Es1;
    [|destruct H1; discriminate].
  destruct H1 as (Hl1 & Hk1 & Ht1). specialize (Ht1 _ eq_refl).
  unfold bind at 1.
  destruct (optimize_database w1) as [[[]|x] w2] eqn:E2; [|discriminate].
  destruct (optimize_database_outcome _ _ E2) as (Hl2 & Hk2 & d' & Hd' & Hw2).
  change (conn w0) with (conn w) in Hc1. rewrite Hc1 in Hd'.
  destruct (create_index_same_rows _ _ _ Hwf Hd' Es1) as (ts2 & Es2 & Hp).
  rewrite (bind_ok _ _ _ _ _ (print_run _ _)).
  set (w3 := set_stdout _ w2). unfold bind at 1.
  destruct (query_male_f_surnames w3) as [[ta'|x] w4] eqn:E3; [|discriminate].
  destruct (query_male_f_surnames_outcome _ _ _ E3) as [_ H3].
  change (working (conn w3)) with (working (conn w2)) in H3.
  rewrite Hw2, Es2 in H3. destruct H3 as (Hl3 & _ & Ht3).
  specialize (Ht3 _ eq_refl).
  unfold ret. intros H. injection H as <- <- <-.
  split; [|split].
  - exists ts1, ts2. split; [|exact Hp].
    rewrite Hl3. change (log w3) with (log w2).
    rewrite Hl2, Hl1, <- app_assoc. reflexivity.
  - exact Ht1.
  - rewrite Ht3. unfold sample. cbn [Nat.iter].
    change (clock w3) with (clock w2). rewrite Hk2, Hk1. reflexivity.
Qed.

(** C4 (as the code has it): in mode 6 the rows fetched before and after
    the creation of the index are the same up to their order, on every
    well-formed database; each elapsed duration is the difference of two
    wall-clock readings, and is non-negative when the wall clock was not set
    back between them. *)
Theorem index_keeps_results (w : world) (tb ta : Q) (w' : world) :
  well_formed (working (conn w)) ->
  run_before_after w = (Ok (tb, ta), w') ->
  (exists ts1 ts2, log w' = log w ++ [Fetchall ts1; Fetchall ts2]
                   /\ Permutation ts1 ts2)
  /\ ((wall (sample 0 w) <= wall (sample 1 w))%Q -> (0 <= tb)%Q)
  /\ ((wall (sample 2 w) <= wall (sample 3 w))%Q -> (0 <= ta)%Q).
Proof.
  intros Hwf E.
  destruct (run_before_after_outcome _ _ _ _ Hwf E) as (Hp & -> & ->).
  split; [exact Hp|].
  split; intros H; apply (proj1 (Qle_minus_iff _ _)) in H; exact H.
Qed.

Lemma well_formed_fresh : well_formed fresh_db.
Proof. repeat split; constructor. Qed.

Lemma well_formed_surnames : well_formed surnames_db.
Proof.
  split; [|split].
  - cbn. repeat constructor; cbn; intuition discriminate.
  - cbn. repeat constructor; cbn; discriminate.
  - exact I.
Qed.

(** An instance: a table of three rows, two of which the filter selects,
    and a steady clock. *)
Lemma index_keeps_results_witness :
  well_formed (working (conn surnames_world))
  /\ run_before_after surnames_world
     = (Ok (2%Q, 1%Q), snd (run_before_after surnames_world))
  /\ (exists ts1 ts2,
        log (snd (run_before_after surnames_world))
        = log surnames_world ++ [Fetchall ts1; Fetchall ts2]
        /\ Permutation ts1 ts2)
  /\ ((wall (sample 0 surnames_world) <= wall (sample 1 surnames_world))%Q ->
      (0 <= 2)%Q)
  /\ ((wall (sample 2 surnames_world) <= wall (sample 3 surnames_world))%Q ->
      (0 <= 1)%Q).
Proof.
  assert (E : run_before_after surnames_world
              = (Ok (2%Q, 1%Q), snd (run_before_after surnames_world)))
    by (vm_compute; reflexivity).
  split; [exact well_formed_surnames|]. split; [exact E|].
  exact (index_keeps_results surnames_world 2%Q 1%Q _ well_formed_surnames E).
Defined.

(** In that run the two fetches hold the same two rows in different
    orders: the table scan returns them as stored, the index by name. *)
Example index_reorders_fetch :
  fetches_of (log (snd (run_before_after surnames_world)))
  = [[("Ford Petr Ivanovich", "1970-01-01", "Male");
      ("Fisher Ivan Petrovich", "1980-02-02", "Male")];
     [("Fisher Ivan Petrovich", "1980-02-02", "Male");
      ("Ford Petr Ivanovich", "1970-01-01", "Male")]].
Proof. vm_compute. reflexivity. Qed.

(** C4 (as stated) fails: with the wall clock set back by 50 seconds during
    the first query, the first elapsed duration is -50. *)
Lemma elapsed_negative_when_clock_set_back : ~ compare_claim set_back_world.
Proof.
  intros H.
  assert (E : run_before_after set_back_world
              = (Ok ((-50)%Q, 1%Q), snd (run_before_after set_back_world)))
    by (vm_compute; reflexivity).
  destruct (H _ _ _ E) as (_ & Hneg & _).
  apply Hneg. reflexivity.
Qed.

(** The index changes the order in which the rows come back, not the rows. *)
Example index_changes_order :
  let d := mkDb (Some [mkRow 1 ("Ford Petr Ivanovich", "1970-01-01", "Male");
                       mkRow 2 ("Fisher Ivan Petrovich", "1980-02-02", "Male");
                       mkRow 3 ("Popov Ivan Petrovich", "1990-05-15", "Male")])
                3 None in
  sql_select_male_f d
  = Some [("Ford Petr Ivanovich", "1970-01-01", "Male");
          ("Fisher Ivan Petrovich", "1980-02-02", "Male")]
  /\ option_map sql_select_male_f (sql_create_index d)
     = Some (Some [("Fisher Ivan Petrovich", "1980-02-02", "Male");
                   ("Ford Petr Ivanovich", "1970-01-01", "Male")]).
Proof. split; reflexivity. Qed.

(** C9 (as the code has it): the elapsed duration is the difference of the
    two wall-clock readings ([time.time()]) taken around the one execution
    of the filter query; the run takes two clock samples and fetches once. *)
Theorem elapsed_is_wall_clock_difference (w : world) (t : Q) (w' : world) :
  query_male_f_surnames w = (Ok t, w') ->
  t = (wall (sample 1 w) - wall (sample 0 w))%Q
  /\ clock w' = tl (tl (clock w))
  /\ exists ts, sql_select_male_f (working (conn w)) = Some ts
                /\ log w' = log w ++ [Fetchall ts].
Proof.
  intros E. destruct (query_male_f_surnames_outcome _ _ _ E) as [_ H].
  destruct (sql_select_male_f (working (conn w))) as [ts|];
    [|destruct H; discriminate].
  destruct H as (Hl & Hk & Ht).
  split; [exact (Ht t eq_refl)|]. split; [exact Hk|].
  exists ts. split; [reflexivity|exact Hl].
Qed.

(** An instance: the world whose wall clock is set back. *)
Lemma elapsed_is_wall_clock_difference_witness :
  query_male_f_surnames set_back_world
  = (Ok (-50)%Q, snd (query_male_f_surnames set_back_world))
  /\ (-50)%Q = (wall (sample 1 set_back_world) - wall (sample 0 set_back_world))%Q
  /\ clock (snd (query_male_f_surnames set_back_world))
     = tl (tl (clock set_back_world))
  /\ exists ts, sql_select_male_f (working (conn set_back_world)) = Some ts
                /\ log (snd (query_male_f_surnames set_back_world))
                   = log set_back_world ++ [Fetchall ts].
Proof.
  assert (E : query_male_f_surnames set_back_world
              = (Ok (-50)%Q, snd (query_male_f_surnames set_back_world)))
    by (vm_compute; reflexivity).
  split; [exact E|].
  exact (elapsed_is_wall_clock_difference set_back_world (-50)%Q _ E).
Defined.

(** C9 (as stated) fails: while the monotonic clock advances by one second
    and the wall clock is set back by 50, the benchmark reports -50. *)
Lemma elapsed_not_monotonic : ~ measured_by_monotonic_clock set_back_world.
Proof.
  intros H.
  assert (E : query_male_f_surnames set_back_world
              = (Ok (-50)%Q, snd (query_male_f_surnames set_back_world)))
    by (vm_compute; reflexivity).
  specialize (H _ _ E). vm_compute in H. discriminate.
Qed.

(** ** The improvement *)





(** With a first elapsed duration of zero the division is attempted and
    raises; the handler of [main] prints the exception. *)
Example improvement_division_by_zero :
  fst (optimize_and_test coarse_world)
  = Raise (ZeroDivisionError "float division by zero")
  /\ last (stdout (snd (main ["app.py"; "6"] coarse_world))) (Text "")
     = ErrorLine (ZeroDivisionError "float division by zero").
Proof. split; vm_compute; reflexivity. Qed.

(** ** Runs of the program *)

Example strptime_ok : strptime "1990-05-15" = Some (1990, 5, 15).
Proof. reflexivity. Qed.

Example strptime_no_feb_30 : strptime "1990-02-30" = None.
Proof. reflexivity. Qed.

Example fmt_date_pads : fmt_date 1950 3 28 = "1950-03-28".
Proof. reflexivity. Qed.

(** Mode 1 on an empty file, then mode 2, then mode 3, with today's date
    fixed at 2024-06-01. *)
Example create_add_list :
  let w1 := snd (main ["app.py"; "1"] (world0 empty_db)) in
  let w2 := snd (main ["app.py"; "2"; "Ivanov Ivan Ivanovich"; "1990-05-15";
                       "Male"] w1) in
  let w3 := snd (main ["app.py"; "3"] (set_stdout [] w2)) in
  contents (durable (conn w2)) = [("Ivanov Ivan Ivanovich", "1990-05-15", "Male")]
  /\ stdout w3
     = [Rule 80; Title "EMPLOYEE DIRECTORY" 80; Rule 80; Header; Dashes 80;
        EmployeeLine ("Ivanov Ivan Ivanovich", "1990-05-15", "Male") 34;
        Rule 80]
  /\ durable (conn w3) = durable (conn w2).
Proof. vm_compute. repeat split. Qed.

(** Mode 2 before the table exists: the error is printed, nothing is stored. *)
Example add_without_table :
  let w := snd (main ["app.py"; "2"; "Ivanov Ivan Ivanovich"; "1990-05-15";
                      "Male"] (world0 empty_db)) in
  stdout w = [ErrorLine no_such_table] /\ durable (conn w) = empty_db.
Proof. vm_compute. split; reflexivity. Qed.

(** Mode 7 clears the table only on the answer y. *)
Example clear_needs_confirmation :
  contents (db_after (main ["app.py"; "7"]) (set_stdin ["n"] (world0 twice_db)))
  = contents twice_db
  /\ contents (db_after (main ["app.py"; "7"]) (set_stdin ["y"] (world0 twice_db)))
     = [].
Proof. vm_compute. split; reflexivity. Qed.

Example generate_5 :
  row_count (snd (generate_random_employees 5 (world0 fresh_db))) = 105.
Proof. vm_compute. reflexivity. Qed.

(** The filter query after a load finds at least the 100 targeted rows. *)
Example targeted_rows_are_found :
  let w := snd (generate_random_employees 20 (world0 fresh_db)) in
  match fetches_of (log (snd (query_male_f_surnames w))) with
  | [ts] => 100 <=? List.length ts
  | _ => false
  end = true.
Proof. vm_compute. reflexivity. Qed.

(** ** Code that keeps a property of the world *)

Lemma keeps_bind {A B} P (m : M A) (k : A -> M B) :
  keeps P m -> (forall a, keeps P (k a)) -> keeps P (bind m k).
Proof.
  intros Hm Hk w Hw. unfold bind. specialize (Hm w Hw).
  destruct (m w) as [[a|e] w1]; cbn [snd] in *; [now apply Hk|exact Hm].
Qed.

Lemma keeps_ret {A} P (a : A) : keeps P (ret a).
Proof. intros w Hw. exact Hw. Qed.

Lemma keeps_raise {A} P e : keeps P (@raise A e).
Proof. intros w Hw. exact Hw. Qed.

Lemma keeps_try_except {A} P (body : M A) handler :
  keeps P body -> (forall e, keeps P (handler e)) ->
  keeps P (try_except body handler).
Proof.
  intros Hb Hh w Hw. unfold try_except. specialize (Hb w Hw).
  destruct (body w) as [[a|e] w1]; cbn [snd] in *; [exact Hb|now apply Hh].
Qed.

Lemma keeps_try_finally {A} P (body : M A) cleanup :
  keeps P body -> keeps P cleanup -> keeps P (try_finally body cleanup).
Proof.
  intros Hb Hc w Hw. unfold try_finally. specialize (Hb w Hw).
  destruct (body w) as [r w1]; cbn [snd] in *. specialize (Hc w1 Hb).
  destruct (cleanup w1) as [[u|e] w2]; exact Hc.
Qed.

Lemma keeps_for_each {A} P (body : A -> M unit) l :
  (forall x, keeps P (body x)) -> keeps P (for_each l body).
Proof.
  intros Hb. induction l as [|x l IH]; cbn [for_each].
  - apply keeps_ret.
  - apply keeps_bind; [apply Hb|intros _; exact IH].
Qed.

(** Code that leaves the connection alone keeps every property of it. *)
Lemma keeps_conn {A} (Q : connection -> Prop) (m : M A) :
  (forall w, conn (snd (m w)) = conn w) ->
  keeps (fun w => Q (conn w)) m.
Proof. intros H w Hw. cbn beta. rewrite H. exact Hw. Qed.

Lemma print_conn l w : conn (snd (print l w)) = conn w.
Proof. reflexivity. Qed.

Lemma random_choice_conn seq w : conn (snd (random_choice seq w)) = conn w.
Proof. reflexivity. Qed.

Lemma storage_fault_conn w : conn (snd (storage_fault w)) = conn w.
Proof. unfold storage_fault. destruct (hd false (faults w)); reflexivity. Qed.

Lemma cursor_fetch_conn query w : conn (snd (cursor_fetch query w)) = conn w.
Proof.
  unfold cursor_fetch, bind, get, raise.
  destruct (query (working (conn w))); reflexivity.
Qed.

Lemma random_employee_conn w : conn (snd (random_employee w)) = conn w.
Proof. destruct (random_employee_run w) as (e & g & -> & _). reflexivity. Qed.

Lemma f_loop_conn n acc w : conn (snd (f_loop n acc w)) = conn w.
Proof. destruct (f_loop_run n acc w) as (gens & g & -> & _). reflexivity. Qed.

Lemma display_all_employees_conn w :
  conn (snd (display_all_employees w)) = conn w.
Proof.
  destruct (sql_select_distinct (bare_choice w) (working (conn w)))
    as [ts|] eqn:Es.
  - now destruct (display_all_employees_frame w ts Es).
  - unfold display_all_employees.
    rewrite (bind_ok _ _ _ _ _ (get_run w)).
    rewrite (bind_raise _ _ _ _ _ (cursor_fetch_none _ _ Es)). reflexivity.
Qed.

Lemma query_male_f_surnames_conn w :
  conn (snd (query_male_f_surnames w)) = conn w.
Proof.
  destruct (query_male_f_surnames w) as [r w'] eqn:E.
  now destruct (query_male_f_surnames_outcome _ _ _ E).
Qed.

Lemma usage_conn w : conn (snd (usage w)) = conn w.
Proof. reflexivity. Qed.

Lemma keeps_get P : keeps P get.
Proof. intros w Hw. exact Hw. Qed.

Lemma keeps_sound_frame {A} (m : M A) :
  (forall w, conn (snd (m w)) = conn w) -> keeps sound m.
Proof. intros H. exact (keeps_conn sound_conn m H). Qed.

Create HintDb keeps.

#[local] Hint Resolve keeps_ret keeps_raise keeps_get : keeps.
#[local] Hint Resolve print_conn random_choice_conn storage_fault_conn
  cursor_fetch_conn random_employee_conn f_loop_conn
  display_all_employees_conn query_male_f_surnames_conn usage_conn : keeps.

Ltac keeps_step :=
  first
    [ solve [auto with keeps]
    | solve [apply keeps_sound_frame; auto with keeps]
    | apply keeps_bind; [|intro]
    | apply keeps_for_each; intro
    | apply keeps_try_except; [|intro]
    | apply keeps_try_finally
    | match goal with
      | |- keeps _ (if ?b then _ else _) => destruct b
      | |- keeps _ (match ?x with _ => _ end) => destruct x eqn:?
      end ].

Ltac keeps_auto := repeat keeps_step.

(** ** The statements keep the database well formed *)

Lemma begin_sound : keeps sound begin.
Proof.
  intros w [Hd Hw]. split; [exact Hd|exact Hw].
Qed.

Lemma step_insert_sound t : keeps sound (step_insert t).
Proof.
  intros w [Hd Hw]. unfold step_insert, bind.
  destruct (storage_fault w) as [[[]|e] w1] eqn:Ef;
    apply storage_fault_outcome in Ef; destruct Ef as [-> _];
    [|split; assumption].
  unfold get. cbn [conn set_faults].
  destruct (sql_insert t (working (conn w))) as [d|] eqn:Ei;
    [|split; assumption].
  split; [exact Hd|].
  exact (well_formed_insert _ _ _ Hw Ei).
Qed.

Lemma step_all_sound data : keeps sound (step_all data).
Proof.
  induction data as [|t data IH]; cbn [step_all].
  - apply keeps_ret.
  - apply keeps_bind; [apply step_insert_sound|intros _; exact IH].
Qed.

Lemma prepare_insert_conn w : conn (snd (prepare_insert w)) = conn w.
Proof.
  unfold prepare_insert, bind, get, raise, ret.
  destruct (employees (working (conn w))); reflexivity.
Qed.

Lemma record_conn e w : conn (snd (record e w)) = conn w.
Proof. reflexivity. Qed.

Lemma conn_commit_sound : keeps sound conn_commit.
Proof.
  intros w Hs. unfold conn_commit, bind, get.
  destruct (txn (conn w)) as [d|] eqn:Et; [|exact Hs].
  assert (Hd : well_formed d)
    by (destruct Hs as [_ Hw]; unfold working in Hw; now rewrite Et in Hw).
  destruct (storage_fault w) as [[[]|e] w1] eqn:Ef;
    apply storage_fault_outcome in Ef; destruct Ef as [-> _].
  - split; exact Hd.
  - exact Hs.
Qed.

Lemma cursor_execute_ddl_sound stmt :
  (forall d d', well_formed d -> stmt d = Some d' -> well_formed d') ->
  keeps sound (cursor_execute_ddl stmt).
Proof.
  intros Hs w [Hd Hw]. unfold cursor_execute_ddl, bind, get, raise.
  destruct (stmt (working (conn w))) as [d'|] eqn:Es; [|split; assumption].
  specialize (Hs _ _ Hw Es).
  destruct (storage_fault w) as [[[]|e] w1] eqn:Ef;
    apply storage_fault_outcome in Ef; destruct Ef as [-> _];
    [|split; assumption].
  unfold modify. cbn [snd conn set_faults].
  destruct (txn (conn w)); split; assumption.
Qed.

Lemma conn_close_sound w :
  well_formed (durable (conn w)) -> sound (snd (conn_close w)).
Proof. intros H. split; exact H. Qed.

#[local] Hint Resolve begin_sound step_insert_sound step_all_sound
  conn_commit_sound prepare_insert_conn record_conn : keeps.

Lemma batch_save_sound es : keeps sound (batch_save es).
Proof. unfold batch_save, cursor_executemany_insert. keeps_auto. Qed.

Lemma save_to_db_sound e : keeps sound (save_to_db e).
Proof. unfold save_to_db, cursor_execute_insert. keeps_auto. Qed.

Lemma ddl_create_table_sound :
  keeps sound (cursor_execute_ddl (fun d => Some (sql_create_table d))).
Proof.
  apply cursor_execute_ddl_sound. intros d d' Hd H. injection H as <-.
  now apply well_formed_create_table.
Qed.

Lemma ddl_drop_table_sound :
  keeps sound (cursor_execute_ddl (fun d => Some (sql_drop_table d))).
Proof.
  apply cursor_execute_ddl_sound. intros d d' Hd H. injection H as <-.
  apply well_formed_drop_table.
Qed.

Lemma ddl_create_index_sound :
  keeps sound (cursor_execute_ddl sql_create_index).
Proof. apply cursor_execute_ddl_sound. exact well_formed_create_index. Qed.

#[local] Hint Resolve ddl_create_table_sound ddl_drop_table_sound
  ddl_create_index_sound : keeps.

Lemma create_table_sound : keeps sound create_table.
Proof. unfold create_table. keeps_auto. Qed.

#[local] Hint Resolve create_table_sound : keeps.

Lemma clear_database_sound : keeps sound clear_database.
Proof. unfold clear_database. keeps_auto. Qed.

Lemma optimize_database_sound : keeps sound optimize_database.
Proof. unfold optimize_database. keeps_auto. Qed.

#[local] Hint Resolve batch_save_sound save_to_db_sound
  clear_database_sound optimize_database_sound : keeps.

Lemma add_employee_sound n d g : keeps sound (add_employee n d g).
Proof. unfold add_employee. keeps_auto. Qed.

Lemma random_loop_sound n : forall buf, keeps sound (random_loop n buf).
Proof.
  induction n as [|n IH]; intros buf; cbn [random_loop]; keeps_auto; apply IH.
Qed.

#[local] Hint Resolve add_employee_sound random_loop_sound : keeps.

Lemma generate_random_employees_sound count :
  keeps sound (generate_random_employees count).
Proof.
  unfold generate_random_employees, load_random_employees, load_f_employees.
  keeps_auto.
Qed.

Lemma truediv_conn a b w : conn (snd (truediv a b w)) = conn w.
Proof. unfold truediv. destruct (Qeq_bool b 0); reflexivity. Qed.

Lemma input_conn prompt w : conn (snd (input prompt w)) = conn w.
Proof.
  unfold input, bind, print, modify, readline. cbn.
  destruct (stdin w); reflexivity.
Qed.

#[local] Hint Resolve generate_random_employees_sound truediv_conn input_conn
  : keeps.

Lemma optimize_and_test_sound : keeps sound optimize_and_test.
Proof.
  unfold optimize_and_test, run_before_after, report_improvement. keeps_auto.
Qed.

#[local] Hint Resolve optimize_and_test_sound : keeps.

Lemma dispatch_sound argv : keeps sound (dispatch argv).
Proof. unfold dispatch. keeps_auto. Qed.

Lemma close_sound : keeps sound close.
Proof. intros w [Hd _]. split; exact Hd. Qed.

(** X1: whatever the arguments and whatever fails on the way, [main] leaves
    a well-formed database on disk when it found one: row keys stay unique
    and below the AUTOINCREMENT counter, and the index, when there is one,
    holds exactly one entry per row. *)
Theorem main_keeps_well_formed (argv : list string) (w : world) :
  well_formed (durable (conn w)) ->
  well_formed (durable (conn (snd (main argv w)))).
Proof.
  intros Hd. unfold main. destruct (List.length argv <? 2).
  - rewrite usage_conn. exact Hd.
  - assert (H : keeps sound
                  (try_finally
                     (try_except (dispatch argv) (fun e => print (ErrorLine e)))
                     close)).
    { apply keeps_try_finally; [|exact close_sound].
      apply keeps_try_except; [apply dispatch_sound|].
      intros e. apply keeps_sound_frame. intros w0. apply print_conn. }
    unfold bind at 1. unfold sqlite3_connect, modify.
    apply H. split; exact Hd.
Qed.

(** An instance: adding an employee to an empty table. *)
Lemma main_keeps_well_formed_witness :
  well_formed (durable (conn (world0 fresh_db)))
  /\ well_formed
       (durable (conn (snd (main ["app.py"; "2"; "Ivanov Ivan Ivanovich";
                                  "1990-05-15"; "Male"] (world0 fresh_db))))).
Proof.
  split; [exact well_formed_fresh|].
  apply (main_keeps_well_formed _ (world0 fresh_db)). exact well_formed_fresh.
Defined.

(** ** The filter query *)

Lemma filter_map_cols (f : tuple -> bool) rs :
  map cols (filter (fun r => f (cols r)) rs) = filter f (map cols rs).
Proof.
  induction rs as [|r rs IH]; [reflexivity|].
  cbn [filter map]. destruct (f (cols r)); cbn [map]; now rewrite IH.
Qed.

Lemma select_male_f_spec d ts :
  well_formed d ->
  sql_select_male_f d = Some ts ->
  Permutation ts (filter matches_male_f (contents d)).
Proof.
  intros (Hn & _ & Hix). unfold sql_select_male_f, contents, rows in *.
  destruct (employees d) as [rs|]; [|discriminate].
  rewrite <- (filter_map_cols matches_male_f rs).
  destruct (idx_gender_name d) as [ix|]; intros H; injection H as <-.
  - now apply search_scan.
  - reflexivity.
Qed.

Lemma select_male_f_some d :
  table_exists d -> exists ts, sql_select_male_f d = Some ts.
Proof.
  unfold table_exists, sql_select_male_f.
  destruct (employees d); [|congruence].
  destruct (idx_gender_name d); eauto.
Qed.

(** X3: on a well-formed database the filter query fetches, each as often
    as it is stored, exactly the rows whose gender is [Male] and whose name
    begins with F or f, whether it scans the table or walks the index. *)
Theorem filter_query_fetches_matching_rows (w : world) :
  well_formed (working (conn w)) ->
  table_exists (working (conn w)) ->
  exists ts,
    log (snd (query_male_f_surnames w)) = log w ++ [Fetchall ts]
    /\ Permutation ts (filter matches_male_f (contents (working (conn w))))
    /\ forall t, In t ts <->
                 In t (contents (working (conn w)))
                 /\ t_gender t = "Male" /\ like_F (t_full_name t) = true.
Proof.
  intros Hwf He.
  destruct (select_male_f_some _ He) as [ts Hs].
  pose proof (select_male_f_spec _ _ Hwf Hs) as Hp.
  destruct (query_male_f_surnames w) as [r w'] eqn:E.
  destruct (query_male_f_surnames_outcome _ _ _ E) as [_ H].
  rewrite Hs in H. destruct H as (Hl & _).
  exists ts. split; [exact Hl|]. split; [exact Hp|].
  intros t. split.
  - intros Ht. apply (Permutation_in _ Hp), filter_In in Ht.
    destruct Ht as [Hin Hm]. unfold matches_male_f, where_male_f in Hm.
    apply andb_prop in Hm. destruct Hm as [Hg Hf].
    apply String.eqb_eq in Hg. auto.
  - intros (Hin & Hg & Hf). apply (Permutation_in _ (Permutation_sym Hp)).
    apply filter_In. split; [exact Hin|].
    unfold matches_male_f, where_male_f. rewrite Hg, Hf. reflexivity.
Qed.

(** An instance: a table of three rows with the index in place. *)
Lemma filter_query_fetches_matching_rows_witness :
  let d := mkDb (Some [mkRow 1 ("Ford Petr Ivanovich", "1970-01-01", "Male");
                       mkRow 2 ("ford Anna Ivanovna", "1980-02-02", "Female");
                       mkRow 3 ("Popov Ivan Petrovich", "1990-05-15", "Male")])
                3
                (Some [("Female", "ford Anna Ivanovna", 2%Z);
                       ("Male", "Ford Petr Ivanovich", 1%Z);
                       ("Male", "Popov Ivan Petrovich", 3%Z)]) in
  let w := world0 d in
  well_formed (working (conn w))
  /\ table_exists (working (conn w))
  /\ exists ts,
       log (snd (query_male_f_surnames w)) = log w ++ [Fetchall ts]
       /\ Permutation ts (filter matches_male_f (contents (working (conn w))))
       /\ forall t, In t ts <->
                    In t (contents (working (conn w)))
                    /\ t_gender t = "Male" /\ like_F (t_full_name t) = true.
Proof.
  cbv zeta.
  match goal with
  | |- well_formed (working (conn (world0 ?d))) /\ _ =>
      assert (Hwf : well_formed (working (conn (world0 d))))
  end.
  { split; [|split].
    - cbn. repeat constructor; cbn; intuition discriminate.
    - cbn. repeat constructor; cbn; lia.
    - cbn. apply perm_swap. }
  split; [exact Hwf|]. split; [discriminate|].
  exact (filter_query_fetches_matching_rows _ Hwf ltac:(discriminate)).
Defined.

(** ** Listing rows whose date does not parse *)

Lemma print_employee_result t w :
  if date_parses t then fst (print_employee t w) = Ok tt
  else exists msg, fst (print_employee t w) = Raise (ValueError msg).
Proof.
  unfold print_employee, calculate_age, date_parses, bind, date_today, raise, ret.
  cbn [birth_date].
  destruct (strptime (t_birth_date t)) as [[[y m] d]|];
    [|eexists; reflexivity].
  destruct (today w) as [[ty tm] td].
  destruct (_ || _); reflexivity.
Qed.

Lemma for_each_print_result ts : forall w,
  if forallb date_parses ts then fst (for_each ts print_employee w) = Ok tt
  else exists msg, fst (for_each ts print_employee w) = Raise (ValueError msg).
Proof.
  induction ts as [|t ts IH]; intros w; [reflexivity|].
  cbn [for_each forallb]. unfold bind.
  pose proof (print_employee_result t w) as Ht.
  destruct (print_employee t w) as [[[]|x] w1]; cbn [fst] in Ht.
  - destruct (date_parses t).
    + cbn [andb]. apply IH.
    + destruct Ht as [msg Ht]. discriminate.
  - destruct (date_parses t); [discriminate|]. cbn [andb fst]. exact Ht.
Qed.

Lemma display_all_employees_fst (w : world) :
  match sql_select_distinct (bare_choice w) (working (conn w)) with
  | None => fst (display_all_employees w) = Raise no_such_table
  | Some ts =>
      if forallb date_parses ts then fst (display_all_employees w) = Ok tt
      else exists msg, fst (display_all_employees w) = Raise (ValueError msg)
  end.
Proof.
  unfold display_all_employees.
  rewrite (bind_ok _ _ _ _ _ (get_run w)).
  destruct (sql_select_distinct (bare_choice w) (working (conn w)))
    as [ts|] eqn:Es.
  - rewrite (bind_ok _ _ _ _ _ (cursor_fetch_run _ _ _ Es)).
    rewrite !(bind_ok _ _ _ _ _ (print_run _ _)).
    unfold bind.
    match goal with
    | |- context [for_each ts print_employee ?w1] =>
        pose proof (for_each_print_result ts w1) as Hr;
        destruct (for_each ts print_employee w1) as [[[]|x] w2]
    end; cbn [fst] in *; exact Hr.
  - rewrite (bind_raise _ _ _ _ _ (cursor_fetch_none _ _ Es)). reflexivity.
Qed.

(** X4: the listing fails with [no such table] when there is no table, and
    with a [ValueError] when one of the tuples it fetched has a birth date
    [strptime] does not take; otherwise it completes.  In every case it
    leaves the connection, hence the table, as it was. *)
Theorem display_all_employees_result (w : world) :
  match sql_select_distinct (bare_choice w) (working (conn w)) with
  | None => fst (display_all_employees w) = Raise no_such_table
  | Some ts =>
      if forallb date_parses ts then fst (display_all_employees w) = Ok tt
      else exists msg, fst (display_all_employees w) = Raise (ValueError msg)
  end
  /\ conn (snd (display_all_employees w)) = conn w.
Proof.
  split.
  - exact (display_all_employees_fst w).
  - exact (display_all_employees_conn w).
Qed.

(** The row added in mode 2 with a date that is no date makes mode 3 fail;
    a day padded with a space is a date, and the row is listed. *)
Example listing_bad_date :
  let w := snd (add_employee "Popov Ivan Petrovich" "15.05.1990" "Male"
                             (world0 fresh_db)) in
  exists msg, fst (display_all_employees w) = Raise (ValueError msg).
Proof. eexists. vm_compute. reflexivity. Qed.

Example listing_space_padded_day :
  let w := snd (add_employee "Popov Ivan Petrovich" "1990-05- 5" "Male"
                             (world0 fresh_db)) in
  fst (display_all_employees w) = Ok tt
  /\ strptime "1990-05- 5" = Some (1990, 5, 5).
Proof. vm_compute. split; reflexivity. Qed.

(** ** What a completed generation leaves in the table *)

Lemma load_f_employees_contents w :
  idle (conn w) -> table_exists (durable (conn w)) -> no_faults w ->
  exists fs w',
    load_f_employees w = (Ok tt, w')
    /\ List.length fs = 100
    /\ Forall (fun e => male_f e = true) fs
    /\ Forall well_dated fs
    /\ idle (conn w')
    /\ contents (durable (conn w'))
       = contents (durable (conn w)) ++ map as_tuple fs
    /\ no_faults w'.
Proof.
  intros Hi He Hn. unfold load_f_employees.
  destruct (f_loop_run 100 [] w) as (fs & g & El & Hlen & Hm & Hv).
  rewrite (bind_ok _ _ _ _ _ El). cbn [app].
  change (batch_save fs ;; conn_commit) with (insert_batch fs).
  destruct (insert_batch fs (set_rng g w)) as [r w'] eqn:E.
  destruct (insert_batch_outcome _ (set_rng g w) _ _ Hi E) as (_ & Hr & Hq).
  destruct (Hq He Hn) as [-> Hn']. destruct Hr as (Hi' & Hc & _).
  exists fs, w'. auto 10.
Qed.

Lemma generate_random_employees_contents count w :
  idle (conn w) -> table_exists (durable (conn w)) -> no_faults w ->
  exists es fs w',
    generate_random_employees count w = (Ok PyNone, w')
    /\ List.length es = count /\ List.length fs = 100
    /\ Forall well_dated (es ++ fs)
    /\ Forall (fun e => male_f e = true) fs
    /\ idle (conn w')
    /\ contents (durable (conn w'))
       = contents (durable (conn w)) ++ map as_tuple (es ++ fs).
Proof.
  intros Hi He Hn. unfold generate_random_employees.
  rewrite (bind_ok _ _ _ _ _ (print_run _ _)).
  set (w0 := set_stdout _ w). unfold bind at 1.
  destruct (load_random_employees count w0) as [r w1] eqn:E1.
  destruct (load_random_employees_outcome _ w0 _ _ Hi E1)
    as (bs & Hc & Hex & Hr & Hq).
  destruct (Hq He Hn) as [-> Hn1].
  destruct Hr as (Hi1 & _ & _ & Hlen & Hv).
  rewrite (bind_ok _ _ _ _ _ (print_run _ _)).
  set (w2 := set_stdout _ w1).
  destruct (load_f_employees_contents w2 Hi1 (Hex He) Hn1)
    as (fs & w3 & E3 & Hflen & Hm & Hfv & Hi3 & Hc3 & _).
  rewrite (bind_ok _ _ _ _ _ E3).
  rewrite (bind_ok _ _ _ _ _ (print_run _ _)). unfold ret.
  exists (List.concat bs), fs, (set_stdout
    (stdout w3 ++ [Text "[SUCCESS] Data generation completed successfully"]) w3).
  split; [reflexivity|]. split; [exact Hlen|]. split; [exact Hflen|].
  split; [apply Forall_app; auto|]. split; [exact Hm|]. split; [exact Hi3|].
  cbn [conn set_stdout]. rewrite Hc3. cbn [w2 conn set_stdout]. rewrite Hc.
  cbn [w0 conn set_stdout]. rewrite map_app, app_assoc. reflexivity.
Qed.

Lemma male_f_matches e : male_f e = true -> matches_male_f (as_tuple e) = true.
Proof.
  unfold male_f, matches_male_f, where_male_f, as_tuple, starts_with, like_F.
  cbn [t_gender t_full_name fst snd]. intros H.
  apply andb_prop in H. destruct H as [Hg Hf]. rewrite Hg. cbn [andb].
  destruct (full_name e) as [|c s]; [discriminate|]. now rewrite Hf.
Qed.

Lemma filter_length_app {A} (f : A -> bool) l1 l2 :
  Forall (fun x => f x = true) l2 ->
  List.length l2 <= List.length (filter f (l1 ++ l2)).
Proof.
  intros H. rewrite filter_app, length_app, (filter_all f l2).
  - lia.
  - now apply Forall_forall.
Qed.

Lemma well_dated_parses e : well_dated e -> date_parses (as_tuple e) = true.
Proof.
  unfold well_dated, valid_birth_date, date_parses, as_tuple.
  cbn [t_birth_date fst snd].
  destruct (strptime (birth_date e)); [reflexivity|discriminate].
Qed.

(** X5: after a generation that completes, the filter query on the
    committed table finds at least the 100 targeted rows, whatever the
    random draws and whether or not the index exists. *)
Theorem filter_finds_targeted_rows (count : nat) (w : world) :
  idle (conn w) -> table_exists (durable (conn w)) -> no_faults w ->
  well_formed (durable (conn w)) ->
  exists ts,
    sql_select_male_f (durable (conn (snd (generate_random_employees count w))))
    = Some ts
    /\ 100 <= List.length ts.
Proof.
  intros Hi He Hn Hwf.
  assert (Hs : sound w).
  { split; [exact Hwf|]. unfold working. rewrite Hi. exact Hwf. }
  apply (generate_random_employees_sound count) in Hs. destruct Hs as [Hwf' _].
  destruct (generate_random_employees_contents count w Hi He Hn)
    as (es & fs & w' & E & _ & Hflen & _ & Hm & _ & Hc).
  rewrite E in *. cbn [snd] in *.
  assert (He' : table_exists (durable (conn w'))).
  { unfold table_exists, contents, rows in *.
    destruct (employees (durable (conn w'))); [discriminate|].
    destruct fs; [discriminate|]. rewrite map_app in Hc. cbn in Hc.
    destruct (map _ _); destruct (map as_tuple es); discriminate. }
  destruct (select_male_f_some _ He') as [ts Hts]. exists ts.
  split; [exact Hts|].
  rewrite (Permutation_length (select_male_f_spec _ _ Hwf' Hts)), Hc.
  rewrite map_app, app_assoc, <- Hflen, <- (length_map as_tuple fs).
  apply filter_length_app. apply Forall_map.
  eapply Forall_impl; [|exact Hm]. exact male_f_matches.
Qed.

(** An instance: twenty random records into an empty table. *)
Lemma filter_finds_targeted_rows_witness :
  idle (conn (world0 fresh_db))
  /\ table_exists (durable (conn (world0 fresh_db)))
  /\ no_faults (world0 fresh_db)
  /\ well_formed (durable (conn (world0 fresh_db)))
  /\ exists ts,
       sql_select_male_f
         (durable (conn (snd (generate_random_employees 20 (world0 fresh_db)))))
       = Some ts
       /\ 100 <= List.length ts.
Proof.
  split; [reflexivity|]. split; [discriminate|]. split; [reflexivity|].
  split; [exact well_formed_fresh|].
  apply (filter_finds_targeted_rows 20 (world0 fresh_db));
    [reflexivity|discriminate|reflexivity|exact well_formed_fresh].
Defined.

(** ** Adding one employee *)

Lemma add_employee_outcome n d g w :
  idle (conn w) -> table_exists (durable (conn w)) -> no_faults w ->
  exists w',
    add_employee n d g w = (Ok tt, w')
    /\ idle (conn w')
    /\ contents (durable (conn w')) = contents (durable (conn w)) ++ [(n, d, g)]
    /\ bare_choice w' = bare_choice w
    /\ log w' = log w.
Proof.
  intros Hi He Hn.
  assert (Hw : working (conn w) = durable (conn w))
    by (unfold working; rewrite Hi; reflexivity).
  destruct (sql_insert_some (n, d, g) _ He) as [d1 Hd1].
  destruct (sql_insert_contents _ _ _ Hd1) as [Hc _].
  pose proof (no_faults_hd _ Hn) as Hf1.
  assert (Hf2 : hd false (tl (faults w)) = false).
  { pose proof (no_faults_tl _ Hn) as H. destruct (tl (faults w)) as [|b f];
      [reflexivity|]. cbn in *. apply andb_prop in H. now destruct b. }
  unfold add_employee, save_to_db, cursor_execute_insert, prepare_insert,
    begin, step_insert, conn_commit, storage_fault, print, bind, get, modify,
    ret, raise.
  cbn [full_name birth_date gender conn set_conn set_faults faults txn durable].
  rewrite Hw. unfold table_exists in He.
  destruct (employees (durable (conn w))) as [rs|]; [|congruence].
  rewrite Hf1. cbn [working txn conn set_conn set_faults].
  rewrite ?Hw, Hd1.
  cbn [conn set_conn set_faults txn faults]. rewrite Hf2.
  eexists. split; [reflexivity|].
  cbn [conn log bare_choice set_stdout set_conn set_faults durable txn].
  split; [reflexivity|]. split; [exact Hc|]. split; reflexivity.
Qed.

Lemma rows_need_table d : contents d <> [] -> table_exists d.
Proof.
  unfold contents, rows, table_exists.
  destruct (employees d); [discriminate|]. intros H. now contradiction H.
Qed.

(** X6: adding an employee to an existing table, with no storage fault,
    commits exactly one more row, and the listing that follows has exactly
    one tuple for the name and birth date just added. *)
Theorem add_then_list (n d g : string) (w : world) :
  idle (conn w) -> table_exists (durable (conn w)) -> no_faults w ->
  let w' := snd (add_employee n d g w) in
  contents (durable (conn w')) = contents (durable (conn w)) ++ [(n, d, g)]
  /\ exists ts g',
       log (snd (display_all_employees w')) = log w' ++ [Fetchall ts]
       /\ filter (fun u => key_eqb (key_of u) (n, d)) ts = [(n, d, g')].
Proof.
  intros Hi He Hn.
  destruct (add_employee_outcome n d g w Hi He Hn)
    as (w' & E & Hi' & Hc & _ & _).
  rewrite E. cbn [snd]. split; [exact Hc|].
  assert (Hw : working (conn w') = durable (conn w'))
    by (unfold working; rewrite Hi'; reflexivity).
  assert (He' : table_exists (working (conn w'))).
  { rewrite Hw. apply rows_need_table. rewrite Hc.
    intros H. symmetry in H. exact (app_cons_not_nil _ _ _ H). }
  destruct (select_distinct_some (bare_choice w') _ He') as [ts Hs].
  destruct (display_all_employees_frame w' ts Hs) as [_ Hl].
  destruct (select_distinct_spec _ _ _ Hs) as (Hnd & _ & _ & Hall).
  rewrite Hw, Hc in Hall.
  specialize (Hall (n, d, g) ltac:(apply in_or_app; right; left; reflexivity)).
  destruct (unique_key ts _ Hnd Hall) as (t & Hf & _ & Hk).
  destruct t as [[n' d'] g'].
  unfold key_of, t_full_name, t_birth_date in Hk. cbn [fst snd] in Hk.
  injection Hk as -> ->.
  exists ts, g'. split; [exact Hl|exact Hf].
Qed.

(** An instance: a second row for a person already stored. *)
Lemma add_then_list_witness :
  let w := world0 twice_db in
  idle (conn w) /\ table_exists (durable (conn w)) /\ no_faults w
  /\ let w' := snd (add_employee "Popov Ivan Petrovich" "1990-05-15" "Male" w) in
     contents (durable (conn w'))
     = contents (durable (conn w))
       ++ [("Popov Ivan Petrovich", "1990-05-15", "Male")]
     /\ exists ts g',
          log (snd (display_all_employees w')) = log w' ++ [Fetchall ts]
          /\ filter (fun u => key_eqb (key_of u)
                                      ("Popov Ivan Petrovich", "1990-05-15")) ts
             = [("Popov Ivan Petrovich", "1990-05-15", g')].
Proof.
  cbv zeta.
  split; [reflexivity|]. split; [discriminate|]. split; [reflexivity|].
  apply (add_then_list _ _ _ (world0 twice_db));
    [reflexivity|discriminate|reflexivity].
Defined.

(** X7: mode 2 on a file that has no table yet stores nothing: the
    [INSERT] fails, the error is printed, and the file is as it was. *)
Theorem add_without_table_fails (prog n d g : string) (w : world) :
  employees (durable (conn w)) = None ->
  durable (conn (snd (main [prog; "2"; n; d; g] w))) = durable (conn w)
  /\ stdout (snd (main [prog; "2"; n; d; g] w))
     = stdout w ++ [ErrorLine no_such_table].
Proof.
  intros He.
  destruct (main [prog; "2"; n; d; g] w) as [r w'] eqn:Em. cbn [snd].
  unfold main in Em. cbn [List.length Nat.ltb Nat.leb] in Em.
  unfold bind at 1 in Em. unfold sqlite3_connect, modify in Em.
  set (w1 := set_conn _ w) in Em.
  assert (E : dispatch [prog; "2"; n; d; g] w1 = (Raise no_such_table, w1)).
  { unfold dispatch. cbn [nth List.length Nat.ltb Nat.leb].
    change (String.eqb "2" "1") with false.
    change (String.eqb "2" "2") with true. cbn iota.
    unfold add_employee, save_to_db, cursor_execute_insert, prepare_insert.
    rewrite bind_assoc, bind_assoc. rewrite (bind_ok _ _ _ _ _ (get_run w1)).
    change (working (conn w1)) with (durable (conn w)). rewrite He.
    reflexivity. }
  unfold try_finally, try_except in Em. rewrite E in Em.
  injection Em as <- <-. split; reflexivity.
Qed.

(** An instance: the empty file. *)
Lemma add_without_table_fails_witness :
  employees (durable (conn (world0 empty_db))) = None
  /\ durable (conn (snd (main ["app.py"; "2"; "Ivanov Ivan Ivanovich";
                              "1990-05-15"; "Male"] (world0 empty_db))))
     = durable (conn (world0 empty_db))
  /\ stdout (snd (main ["app.py"; "2"; "Ivanov Ivan Ivanovich";
                       "1990-05-15"; "Male"] (world0 empty_db)))
     = stdout (world0 empty_db) ++ [ErrorLine no_such_table].
Proof.
  split; [reflexivity|].
  apply (add_without_table_fails _ _ _ _ (world0 empty_db)). reflexivity.
Defined.

(** ** Listing after a generation *)

(** X8: when every birth date stored before parses, a generation that
    completes leaves a table the listing prints without error: no date the
    generator writes makes [calculate_age] fail. *)
Theorem listing_after_generation (count : nat) (w : world) :
  idle (conn w) -> table_exists (durable (conn w)) -> no_faults w ->
  forallb date_parses (contents (durable (conn w))) = true ->
  fst (display_all_employees (snd (generate_random_employees count w))) = Ok tt.
Proof.
  intros Hi He Hn Hold.
  destruct (generate_random_employees_contents count w Hi He Hn)
    as (es & fs & w' & E & _ & Hflen & Hv & _ & Hi' & Hc).
  rewrite E. cbn [snd]. pose proof (display_all_employees_fst w') as Hd.
  assert (Hw : working (conn w') = durable (conn w'))
    by (unfold working; rewrite Hi'; reflexivity).
  assert (Hex : table_exists (working (conn w'))).
  { rewrite Hw. apply rows_need_table. rewrite Hc. intros H.
    apply (f_equal (@List.length _)) in H.
    rewrite !length_app, length_map, length_app in H. cbn in H. lia. }
  destruct (select_distinct_some (bare_choice w') _ Hex) as [ts Es].
  rewrite Es in Hd.
  destruct (select_distinct_spec _ _ _ Es) as (_ & _ & Hin & _).
  rewrite Hw, Hc in Hin.
  replace (forallb date_parses ts) with true in Hd; [exact Hd|].
  symmetry. apply forallb_forall. intros t Ht.
  apply Hin, in_app_or in Ht. destruct Ht as [Ht|Ht].
  - rewrite forallb_forall in Hold. now apply Hold.
  - apply in_map_iff in Ht. destruct Ht as (e & <- & Hine).
    apply well_dated_parses. rewrite Forall_forall in Hv. now apply Hv.
Qed.

(** An instance: five random records into an empty table. *)
Lemma listing_after_generation_witness :
  idle (conn (world0 fresh_db))
  /\ table_exists (durable (conn (world0 fresh_db)))
  /\ no_faults (world0 fresh_db)
  /\ forallb date_parses (contents (durable (conn (world0 fresh_db)))) = true
  /\ fst (display_all_employees
            (snd (generate_random_employees 5 (world0 fresh_db)))) = Ok tt.
Proof.
  split; [reflexivity|]. split; [discriminate|]. split; [reflexivity|].
  split; [reflexivity|].
  apply (listing_after_generation 5 (world0 fresh_db));
    [reflexivity|discriminate|reflexivity|reflexivity].
Defined.

Lemma main_mode_4 prog :
  main [prog; "4"]
  = (sqlite3_connect ;;
     try_finally
       (try_except (generate_random_employees (1000 * 1000) ;; ret tt)
                   (fun e => print (ErrorLine e)))
       close).
Proof. reflexivity. Qed.

Lemma connect_generate_close count w :
  table_exists (durable (conn w)) -> no_faults w ->
  row_count
    (snd ((sqlite3_connect ;;
           try_finally
             (try_except (generate_random_employees count ;; ret tt)
                         (fun e => print (ErrorLine e)))
             close) w))
  = row_count w + count + 100.
Proof.
  intros He Hn. unfold bind at 1. unfold sqlite3_connect, modify.
  set (w1 := set_conn _ w).
  destruct (generate_random_employees_contents count w1 eq_refl He Hn)
    as (es & fs & w2 & E & Hlen & Hflen & _ & _ & _ & Hc).
  unfold try_finally, try_except. rewrite (bind_ok _ _ _ _ _ E).
  rewrite !row_count_contents.
  cbn [snd ret close conn_close modify conn set_conn durable].
  rewrite Hc. cbn [w1 conn set_conn durable].
  rewrite length_app, length_map, length_app, Hlen, Hflen. lia.
Qed.

(** X9: mode 4 on a file with the table, with no storage fault, commits
    1,000,000 random rows and the 100 targeted ones. *)
Theorem mode_4_loads_a_million (prog : string) (w : world) :
  table_exists (durable (conn w)) -> no_faults w ->
  row_count (snd (main [prog; "4"] w)) = row_count w + 1000 * 1000 + 100.
Proof.
  intros He Hn. rewrite main_mode_4.
  exact (connect_generate_close (1000 * 1000) w He Hn).
Qed.

(** An instance: an empty table. *)
Lemma mode_4_loads_a_million_witness :
  table_exists (durable (conn (world0 fresh_db)))
  /\ no_faults (world0 fresh_db)
  /\ row_count (snd (main ["app.py"; "4"] (world0 fresh_db)))
     = row_count (world0 fresh_db) + 1000 * 1000 + 100.
Proof.
  split; [discriminate|]. split; [reflexivity|].
  apply (mode_4_loads_a_million "app.py" (world0 fresh_db));
    [discriminate|reflexivity].
Defined.

(** ** Schema statements *)

Lemma ddl_outcome stmt w r w' :
  idle (conn w) ->
  cursor_execute_ddl stmt w = (r, w') ->
  idle (conn w')
  /\ (durable (conn w') = durable (conn w)
      \/ stmt (durable (conn w)) = Some (durable (conn w')))
  /\ (r = Ok tt -> stmt (durable (conn w)) = Some (durable (conn w')))
  /\ (no_faults w -> stmt (durable (conn w)) <> None ->
      r = Ok tt /\ no_faults w').
Proof.
  intros Hi.
  assert (Hw : working (conn w) = durable (conn w))
    by (unfold working; rewrite Hi; reflexivity).
  unfold cursor_execute_ddl, bind, get, raise, modify. rewrite Hw.
  destruct (stmt (durable (conn w))) as [d|] eqn:Es.
  - destruct (storage_fault w) as [[[]|e] w1] eqn:Ef;
      pose proof (storage_fault_outcome _ _ _ Ef) as [-> Hq];
      cbn [conn set_faults]; rewrite ?Hi; intros H; injection H as <- <-;
      cbn [conn set_conn set_faults durable txn].
    + split; [reflexivity|]. split; [now right|]. split; [reflexivity|].
      intros Hn _. split; [reflexivity|].
      unfold no_faults. cbn [faults set_conn set_faults]. now apply no_faults_tl.
    + split; [exact Hi|]. split; [now left|]. split; [discriminate|].
      intros Hn. specialize (Hq Hn). discriminate.
  - intros H. injection H as <- <-. split; [exact Hi|]. split; [now left|].
    split; [discriminate|]. intros _ H. congruence.
Qed.

Lemma commit_idle w :
  idle (conn w) -> conn_commit w = (Ok tt, w).
Proof. intros Hi. unfold conn_commit, bind, get. now rewrite Hi. Qed.

Lemma create_table_contents d : contents (sql_create_table d) = contents d.
Proof.
  unfold sql_create_table, contents, rows.
  destruct (employees d) eqn:E; [now rewrite E|reflexivity].
Qed.

Lemma create_table_present d : table_exists d -> sql_create_table d = d.
Proof.
  unfold sql_create_table, table_exists.
  destruct (employees d); [reflexivity|congruence].
Qed.

Lemma create_table_creates d : table_exists (sql_create_table d).
Proof.
  unfold sql_create_table, table_exists.
  destruct (employees d) eqn:E; [rewrite E|]; discriminate.
Qed.

(** X10: [create_table] never loses a row: on a connection with no open
    transaction the committed rows are the same after it, whatever fails;
    when the table is already there the whole database is left as it is,
    and with no storage fault the table exists afterwards. *)
Theorem create_table_keeps_rows (w : world) :
  idle (conn w) ->
  contents (durable (conn (snd (create_table w))))
  = contents (durable (conn w))
  /\ (table_exists (durable (conn w)) ->
      durable (conn (snd (create_table w))) = durable (conn w))
  /\ (no_faults w ->
      fst (create_table w) = Ok tt
      /\ table_exists (durable (conn (snd (create_table w))))).
Proof.
  intros Hi. destruct (create_table w) as [r w'] eqn:E. cbn [fst snd].
  unfold create_table in E. unfold bind at 1 in E.
  destruct (cursor_execute_ddl _ w) as [r1 w1] eqn:E1.
  destruct (ddl_outcome _ _ _ _ Hi E1) as (Hi1 & Hd1 & Hok & Hq1).
  assert (Hw : w' = w1 \/ exists l, w' = set_stdout l w1).
  { destruct r1 as [[]|e]; [|injection E as <- <-; now left].
    rewrite (bind_ok _ _ _ _ _ (commit_idle _ Hi1)), print_run in E.
    injection E as <- <-. right. eauto. }
  assert (Hc : durable (conn w') = durable (conn w1))
    by (destruct Hw as [->|[l ->]]; reflexivity).
  rewrite Hc. split; [|split].
  - destruct Hd1 as [->|H]; [reflexivity|]. injection H as <-.
    apply create_table_contents.
  - intros He. destruct Hd1 as [->|H]; [reflexivity|]. injection H as <-.
    now apply create_table_present.
  - intros Hn. destruct (Hq1 Hn ltac:(discriminate)) as [-> _].
    specialize (Hok eq_refl). injection Hok as <-.
    split; [|apply create_table_creates].
    rewrite (bind_ok _ _ _ _ _ (commit_idle _ Hi1)), print_run in E.
    now injection E as <- _.
Qed.

(** An instance: a table with four rows. *)
Lemma create_table_keeps_rows_witness :
  idle (conn (world0 twice_db))
  /\ contents (durable (conn (snd (create_table (world0 twice_db)))))
     = contents (durable (conn (world0 twice_db)))
  /\ (table_exists (durable (conn (world0 twice_db))) ->
      durable (conn (snd (create_table (world0 twice_db))))
      = durable (conn (world0 twice_db)))
  /\ (no_faults (world0 twice_db) ->
      fst (create_table (world0 twice_db)) = Ok tt
      /\ table_exists (durable (conn (snd (create_table (world0 twice_db)))))).
Proof.
  split; [reflexivity|].
  apply (create_table_keeps_rows (world0 twice_db)). reflexivity.
Defined.

Lemma create_table_run w :
  idle (conn w) -> no_faults w ->
  exists w',
    create_table w = (Ok tt, w')
    /\ idle (conn w') /\ no_faults w'
    /\ durable (conn w') = sql_create_table (durable (conn w)).
Proof.
  intros Hi Hn. unfold create_table.
  destruct (cursor_execute_ddl (fun d => Some (sql_create_table d)) w)
    as [r1 w1] eqn:E1.
  destruct (ddl_outcome _ _ _ _ Hi E1) as (Hi1 & _ & Hok & Hq1).
  destruct (Hq1 Hn ltac:(discriminate)) as [-> Hn1].
  specialize (Hok eq_refl). injection Hok as Hd.
  rewrite (bind_ok _ _ _ _ _ E1).
  rewrite (bind_ok _ _ _ _ _ (commit_idle _ Hi1)), print_run.
  eexists. split; [reflexivity|]. cbn [conn set_stdout]. auto.
Qed.

(** X11: [clear_database] with no storage fault leaves an empty table with
    no index and the AUTOINCREMENT counter back at zero, whatever the file
    held before. *)
Theorem clear_database_empties (w : world) :
  idle (conn w) -> no_faults w ->
  fst (clear_database w) = Ok tt
  /\ durable (conn (snd (clear_database w))) = fresh_db
  /\ idle (conn (snd (clear_database w))).
Proof.
  intros Hi Hn. destruct (clear_database w) as [r w'] eqn:E. cbn [fst snd].
  unfold clear_database in E.
  destruct (cursor_execute_ddl (fun d => Some (sql_drop_table d)) w)
    as [r1 w1] eqn:E1.
  destruct (ddl_outcome _ _ _ _ Hi E1) as (Hi1 & _ & Hok & Hq1).
  destruct (Hq1 Hn ltac:(discriminate)) as [-> Hn1].
  specialize (Hok eq_refl). injection Hok as Hd.
  rewrite (bind_ok _ _ _ _ _ E1) in E.
  rewrite (bind_ok _ _ _ _ _ (commit_idle _ Hi1)) in E.
  destruct (create_table_run w1 Hi1 Hn1) as (w2 & E2 & Hi2 & _ & Hd2).
  rewrite (bind_ok _ _ _ _ _ E2), print_run in E. injection E as <- <-.
  cbn [conn set_stdout]. split; [reflexivity|]. split; [|exact Hi2].
  rewrite Hd2, <- Hd. reflexivity.
Qed.

(** An instance: a table with four rows. *)
Lemma clear_database_empties_witness :
  idle (conn (world0 twice_db)) /\ no_faults (world0 twice_db)
  /\ fst (clear_database (world0 twice_db)) = Ok tt
  /\ durable (conn (snd (clear_database (world0 twice_db)))) = fresh_db
  /\ idle (conn (snd (clear_database (world0 twice_db)))).
Proof.
  split; [reflexivity|]. split; [reflexivity|].
  apply (clear_database_empties (world0 twice_db)); reflexivity.
Defined.

(** ** The index statement *)

Lemma create_index_facts d d' :
  sql_create_index d = Some d' ->
  employees d' = employees d
  /\ sqlite_sequence d' = sqlite_sequence d
  /\ idx_gender_name d' <> None
  /\ (idx_gender_name d <> None -> d' = d).
Proof.
  unfold sql_create_index.
  destruct (employees d) as [rs|] eqn:Ee; [|discriminate].
  destruct (idx_gender_name d) as [ix|] eqn:Ei; intros H; injection H as <-.
  - rewrite Ee, Ei. repeat split; congruence.
  - cbn. repeat split; congruence.
Qed.

(** X12: [optimize_database] never touches the rows: on a connection with
    no open transaction the table and the AUTOINCREMENT counter are the same
    after it, whatever fails.  When it completes the index exists, and when
    the index was already there the whole database is left as it is. *)
Theorem optimize_database_keeps_rows (w : world) :
  idle (conn w) ->
  employees (durable (conn (snd (optimize_database w))))
  = employees (durable (conn w))
  /\ sqlite_sequence (durable (conn (snd (optimize_database w))))
     = sqlite_sequence (durable (conn w))
  /\ (fst (optimize_database w) = Ok tt ->
      idx_gender_name (durable (conn (snd (optimize_database w)))) <> None)
  /\ (idx_gender_name (durable (conn w)) <> None ->
      durable (conn (snd (optimize_database w))) = durable (conn w)).
Proof.
  intros Hi. destruct (optimize_database w) as [r w'] eqn:E. cbn [fst snd].
  unfold optimize_database in E.
  rewrite (bind_ok _ _ _ _ _ (print_run _ _)) in E.
  set (w0 := set_stdout _ w) in E. unfold bind at 1 in E.
  destruct (cursor_execute_ddl sql_create_index w0) as [r1 w1] eqn:E1.
  destruct (ddl_outcome _ w0 _ _ Hi E1) as (Hi1 & Hd1 & Hok & _).
  change (durable (conn w0)) with (durable (conn w)) in Hd1, Hok.
  assert (Hc : durable (conn w') = durable (conn w1)
               /\ (r = Ok tt -> r1 = Ok tt)).
  { destruct r1 as [[]|e]; [|injection E as <- <-; split; [reflexivity|discriminate]].
    rewrite (bind_ok _ _ _ _ _ (commit_idle _ Hi1)), print_run in E.
    injection E as <- <-. split; reflexivity. }
  destruct Hc as [Hc Hr]. rewrite Hc.
  destruct Hd1 as [Hd1|Hd1].
  - rewrite Hd1. split; [reflexivity|]. split; [reflexivity|]. split; [|auto].
    intros Hrok. apply create_index_facts in Hok; [|auto].
    rewrite Hd1 in Hok. apply Hok.
  - destruct (create_index_facts _ _ Hd1) as (H1 & H2 & H3 & H4). auto.
Qed.

(** An instance: a table with four rows and no index. *)
Lemma optimize_database_keeps_rows_witness :
  let w := world0 twice_db in
  idle (conn w)
  /\ employees (durable (conn (snd (optimize_database w))))
     = employees (durable (conn w))
  /\ sqlite_sequence (durable (conn (snd (optimize_database w))))
     = sqlite_sequence (durable (conn w))
  /\ (fst (optimize_database w) = Ok tt ->
      idx_gender_name (durable (conn (snd (optimize_database w)))) <> None)
  /\ (idx_gender_name (durable (conn w)) <> None ->
      durable (conn (snd (optimize_database w))) = durable (conn w)).
Proof.
  cbv zeta. split; [reflexivity|].
  apply (optimize_database_keeps_rows (world0 twice_db)). reflexivity.
Defined.

(** ** Modes that only read *)

Lemma keeps_durable_frame {A} d (m : M A) :
  (forall w, conn (snd (m w)) = conn w) ->
  keeps (fun w => durable (conn w) = d) m.
Proof. intros H. exact (keeps_conn (fun c => durable c = d) m H). Qed.

(** X13: the modes that only read leave the file untouched: the listing
    (3), the filter query (5), an unknown mode, mode 2 short of arguments,
    and the call without a mode, whatever fails on the way. *)
Theorem reading_modes_change_nothing (argv : list string) (w : world) :
  nth 1 argv "" <> "1" -> nth 1 argv "" <> "4" ->
  nth 1 argv "" <> "6" -> nth 1 argv "" <> "7" ->
  (nth 1 argv "" = "2" -> List.length argv < 5) ->
  durable (conn (snd (main argv w))) = durable (conn w).
Proof.
  intros H1 H4 H6 H7 H2. unfold main. destruct (List.length argv <? 2).
  - now rewrite usage_conn.
  - assert (Hd : keeps (fun w0 => durable (conn w0) = durable (conn w))
                   (dispatch argv)).
    { unfold dispatch. cbv zeta.
      apply String.eqb_neq in H1, H4, H6, H7. rewrite H1, H4, H6, H7.
      destruct (String.eqb (nth 1 argv "") "2") eqn:E2.
      - apply String.eqb_eq in E2. specialize (H2 E2).
        apply Nat.ltb_lt in H2. rewrite H2.
        apply keeps_durable_frame. reflexivity.
      - destruct (String.eqb (nth 1 argv "") "3").
        + apply keeps_durable_frame. exact display_all_employees_conn.
        + destruct (String.eqb (nth 1 argv "") "5").
          * apply keeps_durable_frame. intros w0. unfold bind.
            pose proof (query_male_f_surnames_conn w0) as Hq.
            destruct (query_male_f_surnames w0) as [[t|e] w1]; exact Hq.
          * apply keeps_durable_frame. reflexivity. }
    assert (H : keeps (fun w0 => durable (conn w0) = durable (conn w))
                  (try_finally
                     (try_except (dispatch argv) (fun e => print (ErrorLine e)))
                     close)).
    { apply keeps_try_finally.
      - apply keeps_try_except; [exact Hd|].
        intros e. apply keeps_durable_frame. reflexivity.
      - intros w0 Hw0. exact Hw0. }
    unfold bind at 1. unfold sqlite3_connect, modify. apply H. reflexivity.
Qed.

(** An instance: the listing of a table with four rows. *)
Lemma reading_modes_change_nothing_witness :
  nth 1 ["app.py"; "3"] "" <> "1" /\ nth 1 ["app.py"; "3"] "" <> "4"
  /\ nth 1 ["app.py"; "3"] "" <> "6" /\ nth 1 ["app.py"; "3"] "" <> "7"
  /\ (nth 1 ["app.py"; "3"] "" = "2" -> List.length ["app.py"; "3"] < 5)
  /\ durable (conn (snd (main ["app.py"; "3"] (world0 twice_db))))
     = durable (conn (world0 twice_db)).
Proof.
  assert (H2 : nth 1 ["app.py"; "3"] "" = "2" -> List.length ["app.py"; "3"] < 5)
    by (cbn; lia).
  split; [discriminate|]. split; [discriminate|]. split; [discriminate|].
  split; [discriminate|]. split; [exact H2|].
  apply (reading_modes_change_nothing ["app.py"; "3"] (world0 twice_db));
    [discriminate|discriminate|discriminate|discriminate|exact H2].
Defined.

(** X14: mode 7 clears nothing unless the answer typed is y or Y.  The
    prompt is written first; any other answer leaves the file untouched and
    prints that the operation was cancelled, and when the input ends before
    an answer is typed the [EOFError] of [input] is the error [main]
    prints, the file again untouched. *)
Theorem clear_refused_without_yes (prog : string) (w : world) :
  hd_error (stdin w) <> Some "y" -> hd_error (stdin w) <> Some "Y" ->
  durable (conn (snd (main [prog; "7"] w))) = durable (conn w)
  /\ stdout (snd (main [prog; "7"] w))
     = stdout w
       ++ [Prompt "[WARNING] Are you sure you want to clear the database? (y/n): ";
           match stdin w with
           | [] => ErrorLine (EOFError "EOF when reading a line")
           | _ :: _ => Text "[INFO] Operation cancelled"
           end].
Proof.
  intros Hy HY.
  destruct (main [prog; "7"] w) as [r w'] eqn:Em. cbn [snd].
  unfold main in Em. cbn [List.length Nat.ltb Nat.leb] in Em.
  unfold bind at 1 in Em. unfold sqlite3_connect, modify in Em.
  unfold try_finally, try_except, dispatch in Em. cbn [nth] in Em.
  change (String.eqb "7" "1") with false in Em.
  change (String.eqb "7" "2") with false in Em.
  change (String.eqb "7" "3") with false in Em.
  change (String.eqb "7" "4") with false in Em.
  change (String.eqb "7" "5") with false in Em.
  change (String.eqb "7" "6") with false in Em.
  change (String.eqb "7" "7") with true in Em. cbn iota in Em.
  unfold input, readline, print, modify in Em. unfold bind in Em.
  cbn beta in Em. cbn [stdin set_conn set_stdout] in Em.
  destruct (stdin w) as [|answer rest].
  - unfold close, conn_close, modify in Em. injection Em as <- <-. cbn. rewrite <- app_assoc. split; reflexivity.
  - assert (Ey : String.eqb answer "y" = false).
    { apply String.eqb_neq. intros ->. apply Hy. reflexivity. }
    assert (EY : String.eqb answer "Y" = false).
    { apply String.eqb_neq. intros ->. apply HY. reflexivity. }
    rewrite Ey, EY in Em. cbn [orb] in Em.
    injection Em as <- <-. cbn. rewrite <- app_assoc. split; reflexivity.
Qed.

(** An instance: the answer n. *)
Lemma clear_refused_without_yes_witness :
  let w := set_stdin ["n"] (world0 twice_db) in
  hd_error (stdin w) <> Some "y" /\ hd_error (stdin w) <> Some "Y"
  /\ durable (conn (snd (main ["app.py"; "7"] w))) = durable (conn w)
  /\ stdout (snd (main ["app.py"; "7"] w))
     = stdout w
       ++ [Prompt "[WARNING] Are you sure you want to clear the database? (y/n): ";
           Text "[INFO] Operation cancelled"].
Proof.
  cbv zeta. split; [discriminate|]. split; [discriminate|].
  apply (clear_refused_without_yes "app.py" (set_stdin ["n"] (world0 twice_db)));
    discriminate.
Defined.

(** With no answer to read, the table keeps its rows and the error is
    printed. *)
Example clear_at_end_of_input :
  let w' := snd (main ["app.py"; "7"] (world0 twice_db)) in
  durable (conn w') = twice_db
  /\ stdout w'
     = [Prompt "[WARNING] Are you sure you want to clear the database? (y/n): ";
        ErrorLine (EOFError "EOF when reading a line")].
Proof. vm_compute. split; reflexivity. Qed.

(** ** Ages *)

(** X15: the age [calculate_age] returns never decreases as today's date
    advances, and it changes nothing in the world. *)
Theorem calculate_age_monotone (e : Employee) (w : world) (t1 t2 : date)
                               (a1 a2 : Z) :
  date_le t1 t2 ->
  fst (calculate_age e (on_day t1 w)) = Ok a1 ->
  fst (calculate_age e (on_day t2 w)) = Ok a2 ->
  (a1 <= a2)%Z
  /\ snd (calculate_age e (on_day t1 w)) = on_day t1 w.
Proof.
  unfold calculate_age, bind, date_today, raise, ret.
  destruct (strptime (birth_date e)) as [[[y m] d]|]; [|discriminate].
  destruct t1 as [[y1 m1] d1], t2 as [[y2 m2] d2].
  cbn [today on_day]. unfold date_le. intros Hle.
  destruct (Nat.ltb_spec m1 m), (Nat.eqb_spec m1 m), (Nat.ltb_spec d1 d),
           (Nat.ltb_spec m2 m), (Nat.eqb_spec m2 m), (Nat.ltb_spec d2 d);
    cbn [orb andb fst snd]; intros Hage1 Hage2;
    injection Hage1 as <-; injection Hage2 as <-; (split; [lia|reflexivity]).
Qed.

(** An instance: born on 1990-05-15, seen the day before the birthday of
    2024 and on it. *)
Lemma calculate_age_monotone_witness :
  let e := mkEmployee "Ivanov Ivan Ivanovich" "1990-05-15" "Male" in
  let w := world0 fresh_db in
  date_le (2024, 5, 14) (2024, 5, 15)
  /\ fst (calculate_age e (on_day (2024, 5, 14) w)) = Ok 33%Z
  /\ fst (calculate_age e (on_day (2024, 5, 15) w)) = Ok 34%Z
  /\ (33 <= 34)%Z
  /\ snd (calculate_age e (on_day (2024, 5, 14) w)) = on_day (2024, 5, 14) w.
Proof.
  cbv zeta.
  assert (Hle : date_le (2024, 5, 14) (2024, 5, 15)) by (cbn; lia).
  split; [exact Hle|]. split; [reflexivity|]. split; [reflexivity|].
  exact (calculate_age_monotone
           (mkEmployee "Ivanov Ivan Ivanovich" "1990-05-15" "Male")
           (world0 fresh_db) (2024, 5, 14) (2024, 5, 15) 33%Z 34%Z
           Hle eq_refl eq_refl).
Defined.

(** ** The name pools *)

Lemma choice_in seq r : seq <> [] -> In (nth (r mod List.length seq) seq "") seq.
Proof.
  intros H. apply nth_In. apply Nat.mod_upper_bound.
  destruct seq; [congruence|discriminate].
Qed.

(** X16: every record of the first loop has a last name of the pool and,
    according to its gender, a first name and a patronymic of the pools of
    that gender: male first names go with the first five patronymics,
    female ones with the last five. *)
Theorem random_employee_pools (w : world) :
  exists e w' last_name first_name middle_name,
    random_employee w = (Ok e, w')
    /\ full_name e = fmt_name last_name first_name middle_name
    /\ In last_name last_names
    /\ ((gender e = "Male" /\ In first_name first_names_male
         /\ In middle_name (firstn 5 middle_names))
        \/ (gender e = "Female" /\ In first_name first_names_female
            /\ In middle_name (skipn 5 middle_names))).
Proof.
  unfold random_employee, random_randint, random_choice, random_next, bind, ret.
  cbn [fst snd rng set_rng].
  pose proof (Nat.mod_upper_bound (hd 0 (rng w)) 2 ltac:(lia)) as Hg.
  change (List.length ["Male"; "Female"]) with 2.
  destruct (hd 0 (rng w) mod 2) as [|[|k]] eqn:Eg; [| |lia]; cbn [nth].
  - change (String.eqb "Male" "Male") with true. cbn iota.
    do 5 eexists. split; [reflexivity|]. cbn [full_name gender].
    split; [reflexivity|]. split; [apply choice_in; discriminate|].
    left. split; [reflexivity|]. split; apply choice_in; discriminate.
  - change (String.eqb "Female" "Male") with false. cbn iota.
    do 5 eexists. split; [reflexivity|]. cbn [full_name gender].
    split; [reflexivity|]. split; [apply choice_in; discriminate|].
    right. split; [reflexivity|]. split; apply choice_in; discriminate.
Qed.

(** X17: for every record the first loop can produce and every today,
    [calculate_age] succeeds, and the age lies between today's year minus
    2006 and today's year minus 1950. *)
Theorem generated_age_in_range (w0 w : world) :
  exists e w0' age,
    random_employee w0 = (Ok e, w0')
    /\ calculate_age e w = (Ok age, w)
    /\ (Z.of_nat (fst (fst (today w))) - 2006 <= age
        <= Z.of_nat (fst (fst (today w))) - 1950)%Z.
Proof.
  destruct (random_employee_run w0) as (e & g & E & Hv).
  apply valid_birth_date_spec in Hv.
  destruct Hv as (y & m & d & Hs & Hy & _ & _).
  assert (Ha : exists age,
             calculate_age e w = (Ok age, w)
             /\ (Z.of_nat (fst (fst (today w))) - 2006 <= age
                 <= Z.of_nat (fst (fst (today w))) - 1950)%Z).
  { unfold calculate_age, bind, date_today, ret. rewrite Hs.
    destruct (today w) as [[ty tm] td]. cbn [fst].
    destruct (_ || _); eexists; (split; [reflexivity|lia]). }
  destruct Ha as (age & Ha & Hb). exists e, (set_rng g w0), age. auto.
Qed.

(** ** Mode 6 and the rows *)

Lemma optimize_database_settled rs :
  keeps (fun w => settled rs (conn w)) optimize_database.
Proof.
  intros w [Hi Hr]. destruct (optimize_database w) as [r w'] eqn:E. cbn [snd].
  unfold optimize_database in E.
  rewrite (bind_ok _ _ _ _ _ (print_run _ _)) in E.
  set (w0 := set_stdout _ w) in E. unfold bind at 1 in E.
  destruct (cursor_execute_ddl sql_create_index w0) as [r1 w1] eqn:E1.
  destruct (ddl_outcome _ w0 _ _ Hi E1) as (Hi1 & Hd1 & _ & _).
  change (durable (conn w0)) with (durable (conn w)) in Hd1.
  assert (Hc : conn w' = conn w1).
  { destruct r1 as [[]|e]; [|now injection E as <- <-].
    rewrite (bind_ok _ _ _ _ _ (commit_idle _ Hi1)), print_run in E.
    now injection E as <- <-. }
  rewrite Hc. split; [exact Hi1|].
  destruct Hd1 as [->|Hd1]; [exact Hr|].
  destruct (create_index_facts _ _ Hd1) as (-> & _). exact Hr.
Qed.

Lemma main_mode_6 prog :
  main [prog; "6"]
  = (sqlite3_connect ;;
     try_finally
       (try_except optimize_and_test (fun e => print (ErrorLine e)))
       close).
Proof. reflexivity. Qed.

Lemma optimize_and_test_settled rs :
  keeps (fun w => settled rs (conn w)) optimize_and_test.
Proof.
  pose proof (fun A (m : M A) => keeps_conn (settled rs) m) as Hframe.
  pose proof (optimize_database_settled rs) as Hopt.
  assert (Hq : keeps (fun w => settled rs (conn w)) query_male_f_surnames)
    by (apply Hframe; exact query_male_f_surnames_conn).
  assert (Hp : forall l, keeps (fun w => settled rs (conn w)) (print l))
    by (intros l; apply Hframe; reflexivity).
  unfold optimize_and_test, run_before_after, report_improvement.
  repeat first
    [ exact Hq | exact Hopt | apply Hp | apply keeps_ret
    | apply Hframe; exact (truediv_conn _ _)
    | apply keeps_bind; [|intro] ].
Qed.

(** X18: mode 6 never changes the rows of the table, whatever fails on the
    way: the table on disk after it holds the rows, with the keys, it held
    before. *)
Theorem mode_6_keeps_rows (prog : string) (w : world) :
  employees (durable (conn (snd (main [prog; "6"] w))))
  = employees (durable (conn w)).
Proof.
  rewrite main_mode_6. unfold bind at 1. unfold sqlite3_connect, modify.
  assert (H : keeps (fun w0 => settled (employees (durable (conn w))) (conn w0))
                (try_finally
                   (try_except optimize_and_test
                               (fun e => print (ErrorLine e)))
                   close)).
  { apply keeps_try_finally.
    - apply keeps_try_except; [apply optimize_and_test_settled|].
      intros e. apply (keeps_conn (settled _)). reflexivity.
    - intros w0 [_ Hr]. split; [reflexivity|exact Hr]. }
  apply H. split; reflexivity.
Qed.

(** ** What the filter query prints *)

Lemma print_employee_line t w w' :
  print_employee t w = (Ok tt, w') ->
  exists age, w' = set_stdout (stdout w ++ [EmployeeLine t age]) w.
Proof.
  unfold print_employee, calculate_age, bind, date_today, raise, ret.
  cbn [birth_date].
  destruct (strptime (t_birth_date t)) as [[[y m] d]|]; [|discriminate].
  destruct (today w) as [[ty tm] td].
  destruct (_ || _); rewrite print_run; intros H; injection H as <-; eauto.
Qed.

Lemma for_each_print_lines ts : forall w w',
  for_each ts print_employee w = (Ok tt, w') ->
  exists lines, stdout w' = stdout w ++ lines /\ Forall2 shows lines ts.
Proof.
  induction ts as [|t ts IH]; intros w w'; cbn [for_each].
  - unfold ret. intros H. injection H as <-. exists [].
    rewrite app_nil_r. split; [reflexivity|constructor].
  - unfold bind. destruct (print_employee t w) as [[[]|e] w1] eqn:E1;
      [|discriminate].
    apply print_employee_line in E1. destruct E1 as [age ->]. intros E2.
    destruct (IH _ _ E2) as (lines & Hl & Hs).
    exists (EmployeeLine t age :: lines). split.
    + rewrite Hl. cbn [stdout set_stdout]. rewrite <- app_assoc. reflexivity.
    + constructor; [exists age; reflexivity|exact Hs].
Qed.

(** X19: a filter query that completes prints the heading, one line for
    each of the first ten rows fetched, in the order fetched, the number of
    the remaining rows when there are more than ten, and the elapsed time. *)
Theorem query_prints_first_ten (w : world) (t : Q) (w' : world) :
  query_male_f_surnames w = (Ok t, w') ->
  exists ts lines,
    sql_select_male_f (working (conn w)) = Some ts
    /\ Forall2 shows lines (firstn 10 ts)
    /\ stdout w'
       = stdout w
         ++ [Rule 80; Title "MALE EMPLOYEES WITH 'F' SURNAMES" 80; Rule 80;
             Header; Dashes 80]
         ++ lines
         ++ (if 10 <? List.length ts
             then [MoreRecords (List.length ts - 10)] else [])
         ++ [QueryTime t; Rule 80].
Proof.
  unfold query_male_f_surnames.
  rewrite (bind_ok _ _ _ _ _ (time_time_run w)).
  set (w1 := set_clock _ w).
  destruct (sql_select_male_f (working (conn w))) as [ts|] eqn:Es.
  - assert (Es1 : sql_select_male_f (working (conn w1)) = Some ts) by exact Es.
    rewrite (bind_ok _ _ _ _ _ (cursor_fetch_run _ _ _ Es1)).
    set (w2 := set_log _ w1).
    rewrite (bind_ok _ _ _ _ _ (time_time_run w2)).
    rewrite !(bind_ok _ _ _ _ _ (print_run _ _)).
    unfold bind at 1.
    match goal with
    | |- context [for_each _ print_employee ?w3] =>
        destruct (for_each (firstn 10 ts) print_employee w3)
          as [[[]|x] w4] eqn:Ef; [|discriminate];
        apply for_each_print_lines in Ef; destruct Ef as (lines & Hl & Hs);
        cbn [stdout set_stdout set_clock set_log w2 w1] in Hl
    end.
    intros H. exists ts, lines. split; [reflexivity|]. split; [exact Hs|].
    revert H. unfold bind at 1.
    destruct (10 <? List.length ts);
      [rewrite print_run|unfold ret at 1];
      rewrite !(bind_ok _ _ _ _ _ (print_run _ _)); unfold ret;
      intros H; injection H as <- <-;
      cbn [stdout set_stdout]; rewrite Hl;
      repeat rewrite <- app_assoc; reflexivity.
  - assert (Es1 : sql_select_male_f (working (conn w1)) = None) by exact Es.
    rewrite (bind_raise _ _ _ _ _ (cursor_fetch_none _ _ Es1)). discriminate.
Qed.

(** An instance: the table a generation of the 100 targeted rows leaves. *)
Lemma query_prints_first_ten_witness :
  let w := snd (generate_random_employees 0 (world0 fresh_db)) in
  query_male_f_surnames w = (Ok 0%Q, snd (query_male_f_surnames w))
  /\ exists ts lines,
       sql_select_male_f (working (conn w)) = Some ts
       /\ Forall2 shows lines (firstn 10 ts)
       /\ stdout (snd (query_male_f_surnames w))
          = stdout w
            ++ [Rule 80; Title "MALE EMPLOYEES WITH 'F' SURNAMES" 80; Rule 80;
                Header; Dashes 80]
            ++ lines
            ++ (if 10 <? List.length ts
                then [MoreRecords (List.length ts - 10)] else [])
            ++ [QueryTime 0; Rule 80].
Proof.
  cbv zeta.
  assert (E : query_male_f_surnames
                (snd (generate_random_employees 0 (world0 fresh_db)))
              = (Ok 0%Q,
                 snd (query_male_f_surnames
                        (snd (generate_random_employees 0 (world0 fresh_db))))))
    by (vm_compute; reflexivity).
  split; [exact E|].
  exact (query_prints_first_ten _ _ _ E).
Defined.

(** After the 100 targeted rows: ten lines, then the 90 that remain. *)
Example query_prints_ten_of_hundred :
  let w := snd (generate_random_employees 0 (world0 fresh_db)) in
  let out := skipn (List.length (stdout w))
                   (stdout (snd (query_male_f_surnames w))) in
  List.length out = 18 /\ nth 15 out (Text "") = MoreRecords 90.
Proof. vm_compute. split; reflexivity. Qed.

(** ** A row added after the index exists *)

(** X20: a male employee whose name begins with F, added to a well-formed
    table with no storage fault, is among the rows the next filter query
    fetches, with or without the index: the [INSERT] keeps the index up to
    date. *)
Theorem added_row_is_found (n d g : string) (w : world) :
  idle (conn w) -> table_exists (durable (conn w)) -> no_faults w ->
  well_formed (durable (conn w)) ->
  matches_male_f (n, d, g) = true ->
  exists ts,
    sql_select_male_f (durable (conn (snd (add_employee n d g w)))) = Some ts
    /\ In (n, d, g) ts.
Proof.
  intros Hi He Hn Hwf Hm.
  assert (Hs : sound w).
  { split; [exact Hwf|]. unfold working. rewrite Hi. exact Hwf. }
  apply (add_employee_sound n d g) in Hs. destruct Hs as [Hwf' _].
  destruct (add_employee_outcome n d g w Hi He Hn) as (w' & E & _ & Hc & _).
  rewrite E in *. cbn [snd] in *.
  assert (He' : table_exists (durable (conn w'))).
  { apply rows_need_table. rewrite Hc. intros H. symmetry in H.
    exact (app_cons_not_nil _ _ _ H). }
  destruct (select_male_f_some _ He') as [ts Hts]. exists ts.
  split; [exact Hts|].
  apply (Permutation_in _ (Permutation_sym (select_male_f_spec _ _ Hwf' Hts))).
  apply filter_In. split; [|exact Hm].
  rewrite Hc. apply in_or_app. right. now left.
Qed.

(** An instance: a second Ford into the indexed table. *)
Lemma added_row_is_found_witness :
  let w := world0 indexed_db in
  idle (conn w) /\ table_exists (durable (conn w)) /\ no_faults w
  /\ well_formed (durable (conn w))
  /\ matches_male_f ("Ford Ivan Petrovich", "1980-02-02", "Male") = true
  /\ exists ts,
       sql_select_male_f
         (durable (conn (snd (add_employee "Ford Ivan Petrovich" "1980-02-02"
                                           "Male" w)))) = Some ts
       /\ In ("Ford Ivan Petrovich", "1980-02-02", "Male") ts.
Proof.
  cbv zeta.
  assert (Hwf : well_formed (durable (conn (world0 indexed_db)))).
  { split; [|split].
    - cbn. repeat constructor. intros [].
    - cbn. repeat constructor. cbn. lia.
    - cbn. reflexivity. }
  split; [reflexivity|]. split; [discriminate|]. split; [reflexivity|].
  split; [exact Hwf|]. split; [reflexivity|].
  apply (added_row_is_found _ _ _ (world0 indexed_db));
    [reflexivity|discriminate|reflexivity|exact Hwf|reflexivity].
Defined.
